(** * fix_encoding.py: a shallow embedding and its verification

    The script repairs mojibake in web files: every file under a root
    directory whose extension is web-relevant is decoded with the first
    codec of a fixed list that accepts its bytes, every entry of the
    table [ENCODING_FIXES] is applied to the text with [str.count] and
    [str.replace], and a changed text is written back as UTF-8 after the
    original was copied to a [.backup] sibling.

    Layout: the Python primitives the script calls ([str] methods, dict
    displays, the three codecs behind the four encoding names, text-mode
    newline handling), then the table, the I/O monad with exceptions,
    [process_file] and [main]; the lemmas and theorems follow the
    definitions.

    What is modelled of the machine: regular files as a map from path to
    bytes, directories as a set of paths, and for everything that depends
    on the operating system (refused operations, enumeration order, line
    separator, path flavour) a [platform] the theorems quantify over.
    [main] starts from the parsed arguments. *)

From Stdlib Require Import ZArith Lia List Bool.
From Stdlib.Strings Require Import Ascii String Byte.
From stdpp Require Import base option list gmap strings.

Local Open Scope Z_scope.

(** ** Python [str]: a sequence of Unicode code points *)

Abbreviation text := (list Z) (only parsing).

(** [s.startswith(sub)] *)
Fixpoint startswith (s sub : text) {struct sub} : bool :=
  match sub, s with
  | [], _ => true
  | _ :: _, [] => false
  | a :: sub', b :: s' => (a =? b) && startswith s' sub'
  end.

(** [sub in s] *)
Fixpoint contains (s sub : text) : bool :=
  startswith s sub ||
  match s with
  | [] => false
  | _ :: s' => contains s' sub
  end.

(** The left-to-right scan behind [str.count] and [str.replace] for a
    non-empty [sub]: at a position where [sub] starts the occurrence is
    taken and the scan resumes behind it ([skip] counts the characters of
    the occurrence still to be passed over), elsewhere it advances by one
    character.  Occurrences found this way never overlap. *)
Fixpoint count_from (sub : text) (skip : nat) (s : text) : nat :=
  match s with
  | [] => O
  | _ :: s' =>
      match skip with
      | S k => count_from sub k s'
      | O =>
          if startswith s sub
          then S (count_from sub (length sub - 1) s')
          else count_from sub O s'
      end
  end.

Fixpoint replace_from (old new : text) (skip : nat) (s : text) : text :=
  match s with
  | [] => []
  | c :: s' =>
      match skip with
      | S k => replace_from old new k s'
      | O =>
          if startswith s old
          then new ++ replace_from old new (length old - 1) s'
          else c :: replace_from old new O s'
      end
  end.

(** [s.count(sub)]; the empty string occurs between all characters. *)
Definition count (s sub : text) : nat :=
  match sub with
  | [] => S (length s)
  | _ :: _ => count_from sub O s
  end.

(** [s.replace(old, new)] *)
Definition replace (s old new : text) : text :=
  match old with
  | [] => new ++ flat_map (fun c => c :: new) s
  | _ :: _ => replace_from old new O s
  end.

(** [sep.join(parts)] *)
Fixpoint join (sep : text) (parts : list text) : text :=
  match parts with
  | [] => []
  | [u] => u
  | u :: rest => u ++ sep ++ join sep rest
  end.

(** ** Python dict displays

    A dict keeps its keys in insertion order; storing under a key that is
    already present keeps the key where it is and overwrites the value.
    A display [{k1: v1, k2: v2, ...}] stores its items from left to
    right. *)

Abbreviation dict := (list (text * text)) (only parsing).

Fixpoint dict_setitem (d : dict) (k v : text) : dict :=
  match d with
  | [] => [(k, v)]
  | (k', v') :: d' =>
      if decide (k' = k) then (k', v) :: d'
      else (k', v') :: dict_setitem d' k v
  end.

Definition dict_display (items : list (text * text)) : dict :=
  fold_left (fun d kv => dict_setitem d kv.1 kv.2) items [].

Fixpoint dict_get (d : dict) (k : text) : option text :=
  match d with
  | [] => None
  | (k', v) :: d' => if decide (k' = k) then Some v else dict_get d' k
  end.

(** ** The substitution table

    [ENCODING_FIXES_display] lists the items of the dict display of the
    source in the order they are written, as code points, in the four
    groups the comments of the source set apart; the comment of each item
    gives its line in [fix_encoding.py].  The last two items are written
    with the same key. *)

Definition ARROW_WRONG : text := [0xE2; 0x2020; 0x2019].
Definition LEFT_ARROW : Z := 0x2190.
Definition RIGHT_ARROW : Z := 0x2192.

(** "Haeufigste doppelte Encodings", l.20-28 *)
Definition DOUBLE_FIXES : list (text * text) :=
  [
    ([0xC3; 0x192; 0xC2; 0xBC], [0xFC]);   (* l.21 *)
    ([0xC3; 0x192; 0xC2; 0xA4], [0xE4]);   (* l.22 *)
    ([0xC3; 0x192; 0xC2; 0xB6], [0xF6]);   (* l.23 *)
    ([0xC3; 0x192; 0xC5; 0xB8], [0xDF]);   (* l.24 *)
    ([0xC3; 0x192; 0xC5; 0xA1], [0xDF]);   (* l.25 *)
    ([0xC3; 0x192; 0xC2; 0x201E], [0xC4]);   (* l.26 *)
    ([0xC3; 0x192; 0xC2; 0x2013], [0xD6]);   (* l.27 *)
    ([0xC3; 0x192; 0xC5], [0xDC])    (* l.28 *)
  ].

(** "Einfache Encodings", l.30-37 *)
Definition SINGLE_FIXES : list (text * text) :=
  [
    ([0xC3; 0xBC], [0xFC]);   (* l.31 *)
    ([0xC3; 0xA4], [0xE4]);   (* l.32 *)
    ([0xC3; 0xB6], [0xF6]);   (* l.33 *)
    ([0xC3; 0x178], [0xDF]);   (* l.34 *)
    ([0xC3; 0x201E], [0xC4]);   (* l.35 *)
    ([0xC3; 0x2013], [0xD6]);   (* l.36 *)
    ([0xC3; 0x153], [0xDC])    (* l.37 *)
  ].

(** "Spezielle Faelle aus den Dateien", l.39-57: whole words *)
Definition WORD_FIXES : list (text * text) :=
  [
    ([0x73; 0x70; 0xC3; 0xA4; 0x74; 0x65; 0x72],
       [0x73; 0x70; 0xE4; 0x74; 0x65; 0x72]);   (* l.40 *)
    ([0x6D; 0xC3; 0xBC; 0x73; 0x73; 0x65; 0x6E],
       [0x6D; 0xFC; 0x73; 0x73; 0x65; 0x6E]);   (* l.41 *)
    ([0x66; 0xC3; 0xBC; 0x72], [0x66; 0xFC; 0x72]);   (* l.42 *)
    ([0xC3; 0xBC; 0x62; 0x65; 0x72], [0xFC; 0x62; 0x65; 0x72]);   (* l.43 *)
    ([0x65; 0x72; 0x66; 0xC3; 0xBC; 0x6C; 0x6C; 0x74],
       [0x65; 0x72; 0x66; 0xFC; 0x6C; 0x6C; 0x74]);   (* l.44 *)
    ([0x61; 0x75; 0x73; 0x66; 0xC3; 0xBC; 0x6C; 0x6C; 0x65; 0x6E],
       [0x61; 0x75; 0x73; 0x66; 0xFC; 0x6C; 0x6C; 0x65; 0x6E]);   (* l.45 *)
    ([0x7A; 0x75; 0x72; 0xC3; 0xBC; 0x63; 0x6B],
       [0x7A; 0x75; 0x72; 0xFC; 0x63; 0x6B]);   (* l.46 *)
    ([0x47; 0x72; 0xC3; 0xBC; 0xC3; 0x178; 0x65; 0x6E],
       [0x47; 0x72; 0xFC; 0xDF; 0x65; 0x6E]);   (* l.47 *)
    ([0x62; 0x65; 0x73; 0x74; 0xC3; 0xA4; 0x74; 0x69; 0x67; 0x65; 0x6E],
       [0x62; 0x65; 0x73; 0x74; 0xE4; 0x74; 0x69; 0x67; 0x65; 0x6E]);   (* l.48 *)
    ([0x55; 0x6E; 0x67; 0xC3; 0xBC; 0x6C; 0x74; 0x69; 0x67],
       [0x55; 0x6E; 0x67; 0xFC; 0x6C; 0x74; 0x69; 0x67]);   (* l.49 *)
    ([0x67; 0xC3; 0xBC; 0x6C; 0x74; 0x69; 0x67],
       [0x67; 0xFC; 0x6C; 0x74; 0x69; 0x67]);   (* l.50 *)
    ([0x53; 0x74; 0xC3; 0xA4; 0x72; 0x6B; 0x65],
       [0x53; 0x74; 0xE4; 0x72; 0x6B; 0x65]);   (* l.51 *)
    ([0x47; 0x72; 0x6F; 0xC3; 0x178; 0x62; 0x75; 0x63; 0x68; 0x73; 0x74; 0x61; 0x62; 0x65],
       [0x47; 0x72; 0x6F; 0xDF; 0x62; 0x75; 0x63; 0x68; 0x73; 0x74; 0x61; 0x62; 0x65]);   (* l.52 *)
    ([0x77; 0xC3; 0xA4; 0x68; 0x6C; 0x65; 0x6E],
       [0x77; 0xE4; 0x68; 0x6C; 0x65; 0x6E]);   (* l.53 *)
    ([0x42; 0x65; 0x6E; 0xC3; 0xB6; 0x74; 0x69; 0x67; 0x74],
       [0x42; 0x65; 0x6E; 0xF6; 0x74; 0x69; 0x67; 0x74]);   (* l.54 *)
    ([0x46; 0x75; 0x6E; 0x6B; 0x74; 0x69; 0x6F; 0x6E; 0x61; 0x6C; 0x69; 0x74; 0xC3; 0xA4; 0x74],
       [0x46; 0x75; 0x6E; 0x6B; 0x74; 0x69; 0x6F; 0x6E; 0x61; 0x6C; 0x69; 0x74; 0xE4; 0x74]);   (* l.55 *)
    ([0x50; 0x65; 0x72; 0x73; 0xC3; 0xB6; 0x6E; 0x6C; 0x69; 0x63; 0x68; 0x65],
       [0x50; 0x65; 0x72; 0x73; 0xF6; 0x6E; 0x6C; 0x69; 0x63; 0x68; 0x65]);   (* l.56 *)
    ([0x56; 0x4F; 0x4C; 0x4C; 0x53; 0x54; 0xC3; 0x201E; 0x4E; 0x44; 0x49; 0x47],
       [0x56; 0x4F; 0x4C; 0x4C; 0x53; 0x54; 0xC4; 0x4E; 0x44; 0x49; 0x47])    (* l.57 *)
  ].

(** "Weitere haeufige Web-Zeichen", l.59-67, written with escapes *)
Definition PUNCTUATION_FIXES : list (text * text) :=
  [
    ([0xE2; 0x201A; 0xAC], [0x20AC]);   (* l.60 *)
    ([0xE2; 0x20AC; 0x153], [0x201C]);   (* l.61 *)
    ([0xE2; 0x20AC; 0xFFFD], [0x201D]);   (* l.62 *)
    ([0xE2; 0x20AC; 0x2122], [0x2019]);   (* l.63 *)
    ([0xE2; 0x20AC; 0x201C], [0x2013]);   (* l.64 *)
    ([0xE2; 0x20AC; 0x201D], [0x2014]);   (* l.65 *)
    (ARROW_WRONG, [LEFT_ARROW]);   (* l.66 *)
    (ARROW_WRONG, [RIGHT_ARROW])   (* l.67 *)
  ].

Definition ENCODING_FIXES_display : list (text * text) :=
  DOUBLE_FIXES ++ SINGLE_FIXES ++ WORD_FIXES ++ PUNCTUATION_FIXES.

(** The dict the module holds after the display is evaluated. *)
Definition ENCODING_FIXES : dict := dict_display ENCODING_FIXES_display.


(** ** Bytes and codecs

    File contents are byte strings.  The script names four encodings;
    Python resolves ['windows-1252'] and ['cp1252'] to the same codec and
    ['iso-8859-1'] to Latin-1.  All decoding is strict (the default
    [errors='strict'] of [open]). *)

Definition byte_val (b : byte) : Z := Z.of_N (Byte.to_N b).

Definition byte_of (z : Z) : byte :=
  match Byte.of_N (Z.to_N z) with
  | Some b => b
  | None => x00
  end.

Definition in_range (lo hi : Z) (b : byte) : bool :=
  (lo <=? byte_val b) && (byte_val b <=? hi).

(** Strict UTF-8: shortest form only, no surrogates, nothing above
    U+10FFFF, no truncated sequence. *)
Fixpoint utf8_decode (bs : list byte) : option text :=
  match bs with
  | [] => Some []
  | b0 :: r0 =>
      let v0 := byte_val b0 in
      if v0 <? 0x80 then cons v0 <$> utf8_decode r0
      else if (0xC2 <=? v0) && (v0 <=? 0xDF) then
        match r0 with
        | b1 :: r1 =>
            if in_range 0x80 0xBF b1
            then cons ((v0 - 0xC0) * 64 + (byte_val b1 - 0x80)) <$> utf8_decode r1
            else None
        | _ => None
        end
      else if (0xE0 <=? v0) && (v0 <=? 0xEF) then
        match r0 with
        | b1 :: b2 :: r2 =>
            if in_range (if v0 =? 0xE0 then 0xA0 else 0x80)
                        (if v0 =? 0xED then 0x9F else 0xBF) b1
               && in_range 0x80 0xBF b2
            then cons ((v0 - 0xE0) * 4096 + (byte_val b1 - 0x80) * 64
                       + (byte_val b2 - 0x80)) <$> utf8_decode r2
            else None
        | _ => None
        end
      else if (0xF0 <=? v0) && (v0 <=? 0xF4) then
        match r0 with
        | b1 :: b2 :: b3 :: r3 =>
            if in_range (if v0 =? 0xF0 then 0x90 else 0x80)
                        (if v0 =? 0xF4 then 0x8F else 0xBF) b1
               && in_range 0x80 0xBF b2 && in_range 0x80 0xBF b3
            then cons ((v0 - 0xF0) * 262144 + (byte_val b1 - 0x80) * 4096
                       + (byte_val b2 - 0x80) * 64 + (byte_val b3 - 0x80))
                   <$> utf8_decode r3
            else None
        | _ => None
        end
      else None
  end.

(** What a Python [str] read from a file can hold: a Unicode scalar
    value, that is a code point that is not a surrogate. *)
Definition scalar_value (c : Z) : bool :=
  ((0 <=? c) && (c <? 0xD800)) || ((0xE000 <=? c) && (c <=? 0x10FFFF)).

Definition utf8_encode_char (c : Z) : option (list byte) :=
  if negb (scalar_value c) then None
  else if c <? 0x80 then Some [byte_of c]
  else if c <? 0x800 then
    Some [byte_of (0xC0 + c / 64); byte_of (0x80 + c mod 64)]
  else if c <? 0x10000 then
    Some [byte_of (0xE0 + c / 4096); byte_of (0x80 + (c / 64) mod 64);
          byte_of (0x80 + c mod 64)]
  else
    Some [byte_of (0xF0 + c / 262144); byte_of (0x80 + (c / 4096) mod 64);
          byte_of (0x80 + (c / 64) mod 64); byte_of (0x80 + c mod 64)].

(** [s.encode('utf-8')]; [None] stands for [UnicodeEncodeError]. *)
Fixpoint utf8_encode (s : text) : option (list byte) :=
  match s with
  | [] => Some []
  | c :: s' =>
      match utf8_encode_char c, utf8_encode s' with
      | Some bs, Some rest => Some (bs ++ rest)
      | _, _ => None
      end
  end.

(** cp1252: five bytes of the C1 range are unassigned and make the codec
    raise; the other 27 map to typographic characters. *)
Definition cp1252_code (v : Z) : option Z :=
  if (v <? 0x80) || (0xA0 <=? v) then Some v
  else match v with
       | 0x80 => Some 0x20AC | 0x82 => Some 0x201A | 0x83 => Some 0x0192
       | 0x84 => Some 0x201E | 0x85 => Some 0x2026 | 0x86 => Some 0x2020
       | 0x87 => Some 0x2021 | 0x88 => Some 0x02C6 | 0x89 => Some 0x2030
       | 0x8A => Some 0x0160 | 0x8B => Some 0x2039 | 0x8C => Some 0x0152
       | 0x8E => Some 0x017D
       | 0x91 => Some 0x2018 | 0x92 => Some 0x2019 | 0x93 => Some 0x201C
       | 0x94 => Some 0x201D | 0x95 => Some 0x2022 | 0x96 => Some 0x2013
       | 0x97 => Some 0x2014 | 0x98 => Some 0x02DC | 0x99 => Some 0x2122
       | 0x9A => Some 0x0161 | 0x9B => Some 0x203A | 0x9C => Some 0x0153
       | 0x9E => Some 0x017E | 0x9F => Some 0x0178
       | _ => None   (* 0x81, 0x8D, 0x8F, 0x90, 0x9D *)
       end.

Definition cp1252_decode_byte (b : byte) : option Z :=
  cp1252_code (byte_val b).

Fixpoint cp1252_decode (bs : list byte) : option text :=
  match bs with
  | [] => Some []
  | b :: bs' =>
      match cp1252_decode_byte b with
      | Some c => cons c <$> cp1252_decode bs'
      | None => None
      end
  end.

(** Latin-1 maps every byte to the code point of the same value. *)
Definition latin1_decode (bs : list byte) : option text :=
  Some (map byte_val bs).

Inductive encoding := UTF_8 | WINDOWS_1252 | ISO_8859_1 | CP1252.

(** [bytes.decode(encoding)]; [None] stands for [UnicodeDecodeError]. *)
Definition decode (enc : encoding) (bs : list byte) : option text :=
  match enc with
  | UTF_8 => utf8_decode bs
  | WINDOWS_1252 | CP1252 => cp1252_decode bs
  | ISO_8859_1 => latin1_decode bs
  end.

(** Text mode with the default [newline=None]: reading turns every
    ["\r\n"] and every remaining ["\r"] into ["\n"], writing turns
    ["\n"] into [os.linesep] when that is something else. *)
Definition CR : Z := 13.
Definition LF : Z := 10.

Definition universal_newlines (s : text) : text :=
  replace (replace s [CR; LF] [LF]) [CR] [LF].

(** [os.linesep] is ["\n"] on POSIX and ["\r\n"] on Windows. *)
Inductive line_separator := PosixLinesep | WindowsLinesep.

Definition linesep_text (sep : line_separator) : text :=
  match sep with
  | PosixLinesep => [LF]
  | WindowsLinesep => [CR; LF]
  end.

Definition write_newlines (sep : line_separator) (s : text) : text :=
  if decide (linesep_text sep = [LF]) then s
  else replace s [LF] (linesep_text sep).

(** ** The world the script runs in

    Regular files are a finite map from path to content, directories a
    set of paths, the console a list of printed records.  What differs
    between machines is gathered in [platform]: the line separator, which
    file operations the operating system refuses (permissions, full
    disks, files that vanished), the order in which a directory tree is
    enumerated, and how [pathlib] cuts the suffix out of a path. *)

Inductive io_op :=
  | OpenRead (p : string)
  | Copy (src dst : string)
  | OpenWrite (p : string)
  | WriteData (p : string).

Inductive exn :=
  | UnicodeDecodeError (enc : encoding)
  | UnicodeEncodeError
  | OSError (op : io_op)
  | SystemExit (code : Z).

(** [SystemExit] derives from [BaseException] only, the others from
    [Exception]. *)
Definition is_Exception (e : exn) : bool :=
  match e with
  | SystemExit _ => false
  | _ => true
  end.

Definition is_UnicodeDecodeError (e : exn) : bool :=
  match e with
  | UnicodeDecodeError _ => true
  | _ => false
  end.

(** What the script prints, one constructor for each [print] (or block
    of [print]s) of the source, with the values it interpolates.  The
    colours of [ColoredOutput] only wrap the text in escape codes and are
    left out; [main] always passes an [output] object. *)
Inductive message :=
  | MsgStarted (path : string) (dry_run : bool)
  | MsgNoSuchDirectory (path : string)
  | MsgChecking (file_path : string)
  | MsgFix (wrong correct : text) (before_count : nat)
  | MsgUnknownEncoding
  | MsgRepaired (total_replacements : nat)
  | MsgWouldRepair (total_replacements : nat)
  | MsgError (e : exn)
  | MsgSummary (total_files changed_files total_replacements : nat)
  | MsgDryRunNote
  | MsgBackupNote
  | MsgDone.

Record world := World {
  files : gmap string (list byte);
  dirs : gset string;
  stdout : list message
}.

Record platform := Platform {
  linesep : line_separator;
  denied : io_op -> bool;
  rglob : gmap string (list byte) -> gset string -> string -> list string;
  suffix_lower : string -> string
}.

Inductive outcome (A : Type) :=
  | Return (a : A)
  | Raise (e : exn).
Arguments Return {A} a.
Arguments Raise {A} e.

Definition IO (A : Type) : Type := world -> outcome A * world.

#[global] Instance IO_ret : MRet IO := fun A a w => (Return a, w).

#[global] Instance IO_bind : MBind IO := fun A B f m w =>
  match m w with
  | (Return a, w') => f a w'
  | (Raise e, w') => (Raise e, w')
  end.

Definition raise {A} (e : exn) : IO A := fun w => (Raise e, w).

(** [try: body  except <catches> as e: handler e] *)
Definition try_except {A} (body : IO A) (catches : exn -> bool)
    (handler : exn -> IO A) : IO A := fun w =>
  match body w with
  | (Raise e, w') => if catches e then handler e w' else (Raise e, w')
  | r => r
  end.

Definition print (m : message) : IO unit := fun w =>
  (Return tt, World (files w) (dirs w) (stdout w ++ [m])).

Definition set_file (p : string) (bs : list byte) (w : world) : world :=
  World (<[p := bs]> (files w)) (dirs w) (stdout w).

Definition path_exists (p : string) : IO bool := fun w =>
  (Return (bool_decide (is_Some (files w !! p)) || bool_decide (p ∈ dirs w)), w).

Definition is_file (p : string) : IO bool := fun w =>
  (Return (bool_decide (is_Some (files w !! p))), w).

Section Script.

Variable os : platform.

(** [with open(file_path, 'r', encoding=encoding) as f: f.read()] *)
Definition read_text (file_path : string) (enc : encoding) : IO text := fun w =>
  if denied os (OpenRead file_path) then (Raise (OSError (OpenRead file_path)), w)
  else
    match files w !! file_path with
    | None => (Raise (OSError (OpenRead file_path)), w)
    | Some bs =>
        match decode enc bs with
        | None => (Raise (UnicodeDecodeError enc), w)
        | Some s => (Return (universal_newlines s), w)
        end
    end.

(** [shutil.copy2(src, dst)] on regular files: [dst] is created or
    overwritten with the bytes of [src]. *)
Definition copy2 (src dst : string) : IO unit := fun w =>
  if denied os (Copy src dst) then (Raise (OSError (Copy src dst)), w)
  else
    match files w !! src with
    | None => (Raise (OSError (Copy src dst)), w)
    | Some bs => (Return tt, set_file dst bs w)
    end.

(** [with open(file_path, 'w', encoding='utf-8') as f: f.write(content)].
    Opening truncates the file; a failure after that leaves it empty. *)
Definition write_text (file_path : string) (content : text) : IO unit := fun w =>
  if denied os (OpenWrite file_path) then (Raise (OSError (OpenWrite file_path)), w)
  else
    match utf8_encode (write_newlines (linesep os) content) with
    | None => (Raise UnicodeEncodeError, set_file file_path [] w)
    | Some bs =>
        if denied os (WriteData file_path)
        then (Raise (OSError (WriteData file_path)), set_file file_path [] w)
        else (Return tt, set_file file_path bs w)
    end.

Definition ENCODINGS : list encoding := [UTF_8; WINDOWS_1252; ISO_8859_1; CP1252].

(** The [for encoding in [...]] loop of [process_file]: the first
    successful read leaves the loop ([break]), a [UnicodeDecodeError]
    moves on to the next encoding ([continue]), anything else propagates.
    The result is the pair [(content, original_encoding)], both [None]
    when the list is exhausted. *)
Fixpoint try_encodings (file_path : string) (encodings : list encoding)
    : IO (option text * option encoding) :=
  match encodings with
  | [] => mret (None, None)
  | encoding :: rest =>
      try_except
        (content ← read_text file_path encoding;
         mret (Some content, Some encoding))
        is_UnicodeDecodeError
        (fun _ => try_encodings file_path rest)
  end.

(** The [for wrong, correct in ENCODING_FIXES.items()] loop, carrying
    [content] and [total_replacements]. *)
Fixpoint apply_fixes (items : dict) (content : text) (total_replacements : nat)
    : IO (text * nat) :=
  match items with
  | [] => mret (content, total_replacements)
  | (wrong, correct) :: rest =>
      let before_count := count content wrong in
      if (0 <? before_count)%nat then
        print (MsgFix wrong correct before_count);;
        apply_fixes rest (replace content wrong correct)
                    (total_replacements + before_count)%nat
      else apply_fixes rest content total_replacements
  end.

(** The [try] block of [process_file]. *)
Definition process_file_try (file_path : string) (dry_run : bool)
    : IO (nat * bool) :=
  '(content, original_encoding) ← try_encodings file_path ENCODINGS;
  match content with
  | None => print MsgUnknownEncoding;; mret (O, false)
  | Some content =>
      let original_content := content in
      '(content, total_replacements) ← apply_fixes ENCODING_FIXES content O;
      if decide (content ≠ original_content) then
        (if negb dry_run then
           let backup_path := (file_path +:+ ".backup")%string in
           copy2 file_path backup_path;;
           write_text file_path content;;
           print (MsgRepaired total_replacements)
         else print (MsgWouldRepair total_replacements));;
        mret (total_replacements, true)
      else mret (O, false)
  end.

(** [process_file]: the block above under [except Exception as e]. *)
Definition process_file (file_path : string) (dry_run : bool) : IO (nat * bool) :=
  try_except
    (process_file_try file_path dry_run)
    is_Exception
    (fun e => print (MsgError e);; mret (O, false)).

(** ** The directory walker

    [rglob] is a generator in Python; the embedding takes the enumeration
    when the loop starts and tests [is_file] on the world of the moment.
    The only files the loop creates end in [.backup]. *)

Definition WEB_EXTENSIONS : gset string :=
  {[ ".php"; ".html"; ".htm"; ".css"; ".js"; ".xml"; ".json" ]}%string.

(** What [argparse] hands to [main]. *)
Record arguments := Args { path : string; dry_run : bool }.

(** The body of [for file_path in search_path.rglob('*')], carrying the
    three counters. *)
Fixpoint walk (args : arguments) (paths : list string)
    (total_files changed_files total_replacements : nat) : IO (nat * nat * nat) :=
  match paths with
  | [] => mret (total_files, changed_files, total_replacements)
  | file_path :: rest =>
      regular ← is_file file_path;
      if regular && bool_decide (suffix_lower os file_path ∈ WEB_EXTENSIONS) then
        print (MsgChecking file_path);;
        '(replacements, changed) ← process_file file_path (dry_run args);
        walk args rest (S total_files)
             (if changed : bool then S changed_files else changed_files)
             (total_replacements + replacements)%nat
      else walk args rest total_files changed_files total_replacements
  end.

Definition main (args : arguments) : IO unit :=
  print (MsgStarted (path args) (dry_run args));;
  found ← path_exists (path args);
  if negb found then
    print (MsgNoSuchDirectory (path args));;
    raise (SystemExit 1)
  else
    paths ← (fun w => (Return (rglob os (files w) (dirs w) (path args)), w));
    '(total_files, changed_files, total_replacements) ← walk args paths O O O;
    print (MsgSummary total_files changed_files total_replacements);;
    (if dry_run args then print MsgDryRunNote else print MsgBackupNote);;
    print MsgDone.


End Script.

(** ** A concrete platform

    A POSIX machine on which no operation is refused: ["\n"] line ends,
    the tree under a root is every known path that extends [root/], and
    the suffix is cut the way [PurePosixPath.suffix] does it, then
    lowered. *)

Definition ascii_lower (c : ascii) : ascii :=
  let n := Ascii.nat_of_ascii c in
  if ((65 <=? n) && (n <=? 90))%nat then Ascii.ascii_of_nat (n + 32) else c.

Fixpoint cut_suffix (reversed_name acc : string) : string :=
  match reversed_name with
  | EmptyString => EmptyString
  | String c rest =>
      if Ascii.eqb c "/" then EmptyString
      else if Ascii.eqb c "." then
        match rest, acc with
        | EmptyString, _ => EmptyString
        | _, EmptyString => EmptyString
        | String d _, _ => if Ascii.eqb d "/" then EmptyString else String "." acc
        end
      else cut_suffix rest (String (ascii_lower c) acc)
  end.

Definition posix_suffix_lower (p : string) : string :=
  cut_suffix (String.rev p) EmptyString.

Definition posix_rglob (fs : gmap string (list byte)) (ds : gset string)
    (root : string) : list string :=
  filter (fun p => String.prefix (root +:+ "/") p = true)
         (elements (dom fs ∪ ds)).

Definition posix : platform :=
  Platform PosixLinesep (fun _ => false) posix_rglob posix_suffix_lower.

(** ** The pass, stated without the console

    [substitute_all] is the pass as the specification words it: every
    entry in table order, each counting and replacing in the text the
    previous entries left, the counts summed.  [entry_counts] keeps the
    count of each entry, [fix_messages] the lines the loop prints. *)

Fixpoint substitute_all (table : dict) (s : text) : text * nat :=
  match table with
  | [] => (s, O)
  | (pattern, replacement) :: rest =>
      let '(s', n) := substitute_all rest (replace s pattern replacement) in
      (s', (count s pattern + n)%nat)
  end.

Fixpoint entry_counts (table : dict) (s : text) : list nat :=
  match table with
  | [] => []
  | (pattern, replacement) :: rest =>
      count s pattern :: entry_counts rest (replace s pattern replacement)
  end.

Fixpoint fix_messages (table : dict) (s : text) : list message :=
  match table with
  | [] => []
  | (pattern, replacement) :: rest =>
      (if (0 <? count s pattern)%nat
       then [MsgFix pattern replacement (count s pattern)] else [])
      ++ fix_messages rest (replace s pattern replacement)
  end.

(** The text before the entry at position [i] takes its turn. *)
Definition text_before (table : dict) (i : nat) (s : text) : text :=
  (substitute_all (take i table) s).1.

(** The decoding loop without the file system: the first encoding of
    the list that accepts the bytes. *)
Fixpoint first_decodable (encodings : list encoding) (bs : list byte)
    : option (text * encoding) :=
  match encodings with
  | [] => None
  | enc :: rest =>
      match decode enc bs with
      | Some s => Some (s, enc)
      | None => first_decodable rest bs
      end
  end.

(** ** Which patterns a pass can leave behind

    A static analysis of a table.  While the entries are traversed, [gone]
    lists patterns that cannot occur in the current text.  An entry whose
    pattern contains one of them finds nothing.  Any other entry may
    rewrite the text: a pattern stays in [gone] when it shares no
    character with the (non-empty) replacement, since then no new
    occurrence can be assembled around an inserted replacement, and the
    entry's own pattern joins [gone] under the same condition. *)

Definition disjoint (a b : text) : bool :=
  forallb (fun c => negb (existsb (Z.eqb c) b)) a.

Definition nonempty (a : text) : bool :=
  match a with
  | [] => false
  | _ :: _ => true
  end.

Definition absent (s : text) (gone : list text) : Prop :=
  Forall (fun d => contains s d = false) gone.

Definition cannot_fire (gone : list text) (pattern : text) : bool :=
  existsb (fun d => contains pattern d) gone.

Definition gone_step (gone : list text) (entry : text * text) : list text :=
  let '(pattern, replacement) := entry in
  if cannot_fire gone pattern then pattern :: gone
  else if nonempty pattern && nonempty replacement then
    (if disjoint replacement pattern then [pattern] else [])
    ++ filter (fun d => disjoint replacement d = true) gone
  else [].

Definition gone_after (table : dict) : list text :=
  fold_left gone_step table [].

Fixpoint idle_entries (gone : list text) (table : dict) : list bool :=
  match table with
  | [] => []
  | entry :: rest =>
      cannot_fire gone entry.1 :: idle_entries (gone_step gone entry) rest
  end.

(** [apart q pattern replacement]: replacing [pattern] cannot touch an
    occurrence of [q].  [q] does not overlap itself at its first
    character, the pattern shares at most its first character with [q]
    and then only the first character of [q], and the replacement does
    not hold the first character of [q]. *)
Definition apart (q : text) (entry : text * text) : bool :=
  match q, entry.1 with
  | h :: tl, p0 :: p' =>
      disjoint p' q && disjoint tl entry.1
      && negb (existsb (Z.eqb h) entry.2) && negb (existsb (Z.eqb h) tl)
      && (negb (p0 =? h) || (nonempty p' && nonempty tl))
  | _, _ => false
  end.

(** An entry corrects a text when it finds something to replace during
    the pass. *)
Definition corrects (table : dict) (i : nat) (s : text) : Prop :=
  exists n, entry_counts table s !! i = Some (S n).

(** ** The runs of [process_file]

    One constructor for each way through the function: the read is
    refused, nothing to replace, a dry run, a backup that is refused, a
    file that cannot be opened for writing, a write that fails after the
    file was truncated, and the repair. *)

Definition log (w : world) (ms : list message) : world :=
  World (files w) (dirs w) (stdout w ++ ms).

Definition backup_path_of (file_path : string) : string :=
  (file_path +:+ ".backup")%string.

(** What [content] holds after the decoding loop. *)
Definition decoded_text (bs : list byte) : option text :=
  (fun r => universal_newlines r.1) <$> first_decodable ENCODINGS bs.

Definition fixed_text (s : text) : text := (substitute_all ENCODING_FIXES s).1.
Definition fixed_count (s : text) : nat := (substitute_all ENCODING_FIXES s).2.

Inductive process_file_run (os : platform) (file_path : string)
    (dry_run : bool) (w : world) : nat * bool -> world -> Prop :=
  | run_read_error :
      denied os (OpenRead file_path) = true \/ files w !! file_path = None ->
      process_file_run os file_path dry_run w (O, false)
        (log w [MsgError (OSError (OpenRead file_path))])
  | run_unchanged bs s :
      denied os (OpenRead file_path) = false ->
      files w !! file_path = Some bs ->
      decoded_text bs = Some s ->
      fixed_count s = O ->
      fixed_text s = s ->
      process_file_run os file_path dry_run w (O, false) w
  | run_would_repair bs s :
      denied os (OpenRead file_path) = false ->
      files w !! file_path = Some bs ->
      decoded_text bs = Some s ->
      (0 < fixed_count s)%nat ->
      dry_run = true ->
      process_file_run os file_path dry_run w (fixed_count s, true)
        (log w (fix_messages ENCODING_FIXES s ++ [MsgWouldRepair (fixed_count s)]))
  | run_copy_error bs s :
      denied os (OpenRead file_path) = false ->
      files w !! file_path = Some bs ->
      decoded_text bs = Some s ->
      (0 < fixed_count s)%nat ->
      dry_run = false ->
      denied os (Copy file_path (backup_path_of file_path)) = true ->
      process_file_run os file_path dry_run w (O, false)
        (log w (fix_messages ENCODING_FIXES s
                ++ [MsgError (OSError (Copy file_path (backup_path_of file_path)))]))
  | run_open_error bs s :
      denied os (OpenRead file_path) = false ->
      files w !! file_path = Some bs ->
      decoded_text bs = Some s ->
      (0 < fixed_count s)%nat ->
      dry_run = false ->
      denied os (Copy file_path (backup_path_of file_path)) = false ->
      denied os (OpenWrite file_path) = true ->
      process_file_run os file_path dry_run w (O, false)
        (log (set_file (backup_path_of file_path) bs w)
             (fix_messages ENCODING_FIXES s
              ++ [MsgError (OSError (OpenWrite file_path))]))
  | run_write_error bs s :
      denied os (OpenRead file_path) = false ->
      files w !! file_path = Some bs ->
      decoded_text bs = Some s ->
      (0 < fixed_count s)%nat ->
      dry_run = false ->
      denied os (Copy file_path (backup_path_of file_path)) = false ->
      denied os (OpenWrite file_path) = false ->
      denied os (WriteData file_path) = true ->
      process_file_run os file_path dry_run w (O, false)
        (log (set_file file_path [] (set_file (backup_path_of file_path) bs w))
             (fix_messages ENCODING_FIXES s
              ++ [MsgError (OSError (WriteData file_path))]))
  | run_repaired bs s bs' :
      denied os (OpenRead file_path) = false ->
      files w !! file_path = Some bs ->
      decoded_text bs = Some s ->
      (0 < fixed_count s)%nat ->
      dry_run = false ->
      denied os (Copy file_path (backup_path_of file_path)) = false ->
      denied os (OpenWrite file_path) = false ->
      denied os (WriteData file_path) = false ->
      utf8_encode (write_newlines (linesep os) (fixed_text s)) = Some bs' ->
      process_file_run os file_path dry_run w (fixed_count s, true)
        (log (set_file file_path bs' (set_file (backup_path_of file_path) bs w))
             (fix_messages ENCODING_FIXES s ++ [MsgRepaired (fixed_count s)])).

(** The files the walker hands to [process_file]. *)
Definition selected (os : platform) (w : world) (p : string) : Prop :=
  is_Some (files w !! p) /\ suffix_lower os p ∈ WEB_EXTENSIONS.

(** ** Examples

    The scenario of the specification: a file that holds the garbled
    word three times, under a root directory [site]. *)

Definition SPAETER_WRONG : text := [0x73; 0x70; 0xC3; 0xA4; 0x74; 0x65; 0x72].
Definition SPAETER : text := [0x73; 0x70; 0xE4; 0x74; 0x65; 0x72].

(** "spÃ¤ter spÃ¤ter spÃ¤ter" as UTF-8 bytes. *)
Definition spaeter_bytes : list byte :=
  [x73; x70; xc3; x83; xc2; xa4; x74; x65; x72; x20;
   x73; x70; xc3; x83; xc2; xa4; x74; x65; x72; x20;
   x73; x70; xc3; x83; xc2; xa4; x74; x65; x72].

Definition example_world : world :=
  World {[ "site/a.php"%string := spaeter_bytes ]} {[ "site"%string ]} [].

(** Bytes that are not UTF-8: "Ã¤é" in cp1252. *)
Definition cp1252_bytes : list byte := [xc3; xa4; xe9].

Definition legacy_world : world :=
  World {[ "site/b.html"%string := cp1252_bytes ]} {[ "site"%string ]} [].

(** A platform on which nothing can be written. *)
Definition read_only : platform :=
  Platform PosixLinesep
    (fun op => match op with OpenRead _ => false | _ => true end)
    posix_rglob posix_suffix_lower.

(** The root exists when it is a file or a directory. *)
Definition root_exists (w : world) (p : string) : Prop :=
  is_Some (files w !! p) \/ p ∈ dirs w.

(** "Ã" followed by a mis-decoded en dash "â€“". *)
Definition A_TILDE_DASH_WRONG : text := [0xC3; 0xE2; 0x20AC; 0x201C].

(** The same text as a UTF-8 file. *)
Definition a_tilde_dash_bytes : list byte :=
  [xc3; x83; xc3; xa2; xe2; x82; xac; xe2; x80; x9c].

Definition dash_world : world :=
  World {[ "site/c.htm"%string := a_tilde_dash_bytes ]} {[ "site"%string ]} [].

(** The two patterns that end in an en dash (l.27 and l.36). *)
Definition O_UMLAUT_DOUBLE_WRONG : text := [0xC3; 0x192; 0xC2; 0x2013].
Definition O_UMLAUT_WRONG : text := [0xC3; 0x2013].

(** ** Further examples and observations of the console *)

(** A style sheet without any mojibake: "a{}". *)
Definition clean_bytes : list byte := [x61; x7b; x7d].

Definition clean_world : world :=
  World {[ "site/d.css"%string := clean_bytes ]} {[ "site"%string ]} [].

(** The text of the scenario. *)
Definition spaeter_text : text :=
  SPAETER_WRONG ++ [0x20] ++ SPAETER_WRONG ++ [0x20] ++ SPAETER_WRONG.

(** The line the loop prints for an entry and its count. *)
Definition fix_line (l : text * text * nat) : message :=
  MsgFix l.1.1 l.1.2 l.2.

(** The files a piece of console output reports as checked. *)
Definition checked (ms : list message) : list string :=
  omap (fun m => match m with MsgChecking p => Some p | _ => None end) ms.

(** The two characters one of which every pattern of the table holds:
    "Ã" and "â". *)
Definition A_TILDE : Z := 0xC3.
Definition A_CIRCUMFLEX : Z := 0xE2.

(** "Ã¤" and a line end of Windows, as UTF-8 bytes. *)
Definition crlf_bytes : list byte := [xc3; x83; xc2; xa4; x0d; x0a].

Definition crlf_world : world :=
  World {[ "site/e.xml"%string := crlf_bytes ]} {[ "site"%string ]} [].

(** * Properties of the Python primitives *)

(** ** [startswith] and [in] *)

Lemma startswith_app (p t : text) : startswith (p ++ t) p = true.
Proof.
  induction p as [|a p IH]; simpl; [done|].
  by rewrite Z.eqb_refl.
Qed.

Lemma startswith_inv (s p : text) :
  startswith s p = true -> s = p ++ drop (length p) s.
Proof.
  revert s; induction p as [|a p IH]; intros s H; simpl in *; [done|].
  destruct s as [|b s]; [done|].
  apply andb_true_iff in H as [Hab Hrest].
  apply Z.eqb_eq in Hab as ->. simpl. f_equal. by apply IH.
Qed.

Lemma startswith_iff (s p : text) :
  startswith s p = true <-> exists t, s = p ++ t.
Proof.
  split.
  - intros H. eexists. by apply startswith_inv.
  - intros [t ->]. apply startswith_app.
Qed.

Lemma startswith_app_l (s t p : text) :
  startswith s p = true -> startswith (s ++ t) p = true.
Proof.
  intros [u ->]%startswith_iff. rewrite <- app_assoc. apply startswith_app.
Qed.

Lemma startswith_cons (s p : text) (a b : Z) :
  startswith (b :: s) (a :: p) = true <-> a = b /\ startswith s p = true.
Proof. simpl. rewrite andb_true_iff, Z.eqb_eq. tauto. Qed.

Lemma contains_iff (s p : text) :
  contains s p = true <-> exists l r, s = l ++ p ++ r.
Proof.
  induction s as [|c s IH]; simpl.
  - rewrite orb_false_r. split.
    + intros [t Ht]%startswith_iff. by exists [], t.
    + intros (l & r & H). symmetry in H.
      apply app_eq_nil in H as [-> H]. apply app_eq_nil in H as [-> _].
      done.
  - rewrite orb_true_iff, IH. split.
    + intros [[t Ht]%startswith_iff | (l & r & ->)].
      * by exists [], t.
      * by exists (c :: l), r.
    + intros (l & r & H). destruct l as [|c' l]; simpl in H.
      * left. apply startswith_iff. by exists r.
      * right. injection H as -> ->. by exists l, r.
Qed.

Lemma contains_app_l (s t p : text) :
  contains s p = true -> contains (s ++ t) p = true.
Proof.
  rewrite !contains_iff. intros (l & r & ->). exists l, (r ++ t).
  by rewrite <- !app_assoc.
Qed.

Lemma contains_app_r (s t p : text) :
  contains t p = true -> contains (s ++ t) p = true.
Proof.
  rewrite !contains_iff. intros (l & r & ->). exists (s ++ l), r.
  by rewrite <- !app_assoc.
Qed.

Lemma contains_trans (s p d : text) :
  contains p d = true -> contains s p = true -> contains s d = true.
Proof.
  rewrite !contains_iff. intros (l1 & r1 & ->) (l2 & r2 & ->).
  exists (l2 ++ l1), (r1 ++ r2). by rewrite <- !app_assoc.
Qed.

Lemma contains_cons_false (c : Z) (s p : text) :
  contains (c :: s) p = false <->
  startswith (c :: s) p = false /\ contains s p = false.
Proof. simpl. apply orb_false_iff. Qed.

(** ** The scan: unfolding equations and an induction principle *)

Lemma count_from_drop (p : text) (k : nat) (s : text) :
  count_from p k s = count_from p O (drop k s).
Proof.
  revert k; induction s as [|c s IH]; intros [|k]; simpl; auto.
Qed.

Lemma replace_from_drop (p r : text) (k : nat) (s : text) :
  replace_from p r k s = replace_from p r O (drop k s).
Proof.
  revert k; induction s as [|c s IH]; intros [|k]; simpl; auto.
Qed.

Lemma count_nil (p : text) : p <> [] -> count [] p = O.
Proof. by destruct p. Qed.

Lemma count_match (p t : text) : p <> [] -> count (p ++ t) p = S (count t p).
Proof.
  destruct p as [|a p]; [done|]. intros _.
  unfold count. change ((a :: p) ++ t) with (a :: (p ++ t)).
  cbn [count_from]. change (a :: (p ++ t)) with ((a :: p) ++ t).
  rewrite startswith_app, count_from_drop. f_equal. f_equal.
  cbn [length]. rewrite Nat.sub_1_r. cbn [Nat.pred].
  by rewrite drop_app_length.
Qed.

Lemma count_skip (c : Z) (t p : text) :
  startswith (c :: t) p = false -> count (c :: t) p = count t p.
Proof.
  destruct p as [|a p]; [done|]. intros H.
  unfold count. cbn [count_from]. by rewrite H.
Qed.

Lemma replace_nil (p r : text) : p <> [] -> replace [] p r = [].
Proof. by destruct p. Qed.

Lemma replace_match (p r t : text) :
  p <> [] -> replace (p ++ t) p r = r ++ replace t p r.
Proof.
  destruct p as [|a p]; [done|]. intros _.
  unfold replace. change ((a :: p) ++ t) with (a :: (p ++ t)).
  cbn [replace_from]. change (a :: (p ++ t)) with ((a :: p) ++ t).
  rewrite startswith_app, replace_from_drop. f_equal. f_equal.
  cbn [length]. rewrite Nat.sub_1_r. cbn [Nat.pred].
  by rewrite drop_app_length.
Qed.

Lemma replace_skip (c : Z) (t p r : text) :
  startswith (c :: t) p = false -> replace (c :: t) p r = c :: replace t p r.
Proof.
  destruct p as [|a p]; [done|]. intros H.
  unfold replace. cbn [replace_from]. by rewrite H.
Qed.

(** Every text is empty, or starts with an occurrence of [p], or starts
    with a character at which no occurrence starts. *)
Lemma scan_ind (p : text) (Hp : p <> []) (P : text -> Prop) :
  P [] ->
  (forall t, P t -> P (p ++ t)) ->
  (forall c t, startswith (c :: t) p = false -> P t -> P (c :: t)) ->
  forall s, P s.
Proof.
  intros Hnil Hmatch Hskip s.
  remember (length s) as n eqn:Hn. revert s Hn.
  induction n as [n IH] using lt_wf_ind. intros [|c t] Hn; [done|].
  destruct (startswith (c :: t) p) eqn:Hsw.
  - rewrite (startswith_inv _ _ Hsw). apply Hmatch.
    apply (IH (length (drop (length p) (c :: t)))); [|done].
    rewrite length_drop, Hn. destruct p; [done|]. simpl. lia.
  - apply Hskip; [done|]. apply (IH (length t)); [|done].
    subst n. simpl. lia.
Qed.

(** ** What [count] and [replace] compute *)

Lemma contains_nil_l (p : text) : p <> [] -> contains [] p = false.
Proof. by destruct p. Qed.

Lemma count_zero_iff (s p : text) :
  p <> [] -> count s p = O <-> contains s p = false.
Proof.
  intros Hp. induction s as [| t IH | c t Hsw IH] using (scan_ind p Hp).
  - by rewrite count_nil, contains_nil_l.
  - rewrite count_match by done. split; [done|]. intros H.
    assert (contains (p ++ t) p = true) as Ht; [|congruence].
    apply contains_iff. by exists [], t.
  - rewrite count_skip by done. rewrite contains_cons_false. tauto.
Qed.

Lemma count_pos_iff (s p : text) :
  p <> [] -> (0 < count s p)%nat <-> contains s p = true.
Proof.
  intros Hp. pose proof (count_zero_iff s p Hp) as [H1 H2].
  destruct (contains s p), (count s p); split; intros; try done; try lia;
    (by specialize (H1 eq_refl)) || (by specialize (H2 eq_refl)).
Qed.

(** [replace] returns the text itself when nothing is found; this is why
    the guard [if before_count > 0] of the loop changes nothing. *)
Lemma replace_id (s p r : text) : count s p = O -> replace s p r = s.
Proof.
  destruct (decide (p = [])) as [-> | Hp]; [done|].
  induction s as [| t IH | c t Hsw IH] using (scan_ind p Hp); intros H.
  - by apply replace_nil.
  - by rewrite count_match in H.
  - rewrite count_skip in H by done. rewrite replace_skip by done.
    by rewrite IH.
Qed.

Lemma replace_length (s p r : text) :
  p <> [] ->
  (length (replace s p r) + count s p * length p
   = length s + count s p * length r)%nat.
Proof.
  intros Hp. induction s as [| t IH | c t Hsw IH] using (scan_ind p Hp).
  - by rewrite replace_nil, count_nil.
  - rewrite replace_match, count_match by done. rewrite !length_app. lia.
  - rewrite replace_skip, count_skip by done. simpl. lia.
Qed.

Lemma replace_Forall (P : Z -> Prop) (s p r : text) :
  Forall P s -> Forall P r -> Forall P (replace s p r).
Proof.
  intros Hs Hr. destruct (decide (p = [])) as [-> | Hp].
  - unfold replace. apply Forall_app. split; [done|].
    induction Hs as [|c s Hc Hs IH]; simpl; [done|].
    constructor; [done|]. by apply Forall_app.
  - revert Hs.
    induction s as [| t IH | c t Hsw IH] using (scan_ind p Hp); intros Hs.
    + by rewrite replace_nil.
    + rewrite replace_match by done. apply Forall_app in Hs as [_ Ht].
      apply Forall_app. auto.
    + rewrite replace_skip by done. inversion Hs; subst. constructor; auto.
Qed.

Lemma join_cons_cons (sep u v : text) (rest : list text) :
  join sep (u :: v :: rest) = u ++ sep ++ join sep (v :: rest).
Proof. done. Qed.

(** [s.replace(old, new)] is [new.join(s.split(old))]: the text is cut
    at the occurrences the scan takes, one more piece than occurrences,
    and no piece holds an occurrence itself. *)
Lemma replace_join (s p r : text) :
  p <> [] ->
  exists parts : list text,
    s = join p parts /\
    replace s p r = join r parts /\
    length parts = S (count s p) /\
    Forall (fun u => contains u p = false) parts.
Proof.
  intros Hp. induction s as [| t IH | c t Hsw IH] using (scan_ind p Hp).
  - exists [[]]. rewrite replace_nil, count_nil by done.
    split_and!; try done. constructor; [|done]. by apply contains_nil_l.
  - destruct IH as (parts & Hs & Hr & Hlen & Hall).
    destruct parts as [|u rest]; [done|].
    exists ([] :: u :: rest).
    rewrite replace_match, count_match by done.
    split_and!.
    + by rewrite join_cons_cons, <- Hs.
    + by rewrite join_cons_cons, <- Hr.
    + simpl in *. lia.
    + constructor; [by apply contains_nil_l | done].
  - destruct IH as (parts & Hs & Hr & Hlen & Hall).
    destruct parts as [|u rest]; [done|].
    exists ((c :: u) :: rest).
    rewrite replace_skip, count_skip by done.
    apply Forall_cons in Hall as [Hu Hrest].
    split_and!.
    + rewrite Hs. by destruct rest.
    + rewrite Hr. by destruct rest.
    + done.
    + constructor; [|done]. apply contains_cons_false. split; [|done].
      destruct (startswith (c :: u) p) eqn:Hcu; [|done].
      assert (startswith (c :: t) p = true) as Ht; [|congruence].
      rewrite Hs. destruct rest as [|v rest]; [done|].
      rewrite join_cons_cons.
      change (c :: u ++ p ++ join p (v :: rest))
        with ((c :: u) ++ p ++ join p (v :: rest)).
      by apply startswith_app_l.
Qed.

(** Counting one character: [replace] moves the balance by what the
    pattern and the replacement hold of it. *)
Lemma count_char_cons (c x : Z) (t : text) :
  count (x :: t) [c] = ((if (c =? x)%Z then 1 else 0) + count t [c])%nat.
Proof.
  destruct (c =? x) eqn:Hcx.
  - apply Z.eqb_eq in Hcx as ->. change (x :: t) with ([x] ++ t).
    by rewrite count_match.
  - rewrite count_skip; [done|]. simpl. by rewrite Hcx.
Qed.

Lemma count_char_app (c : Z) (a b : text) :
  count (a ++ b) [c] = (count a [c] + count b [c])%nat.
Proof.
  induction a as [|x a IH]; [done|].
  change ((x :: a) ++ b) with (x :: (a ++ b)).
  rewrite !count_char_cons, IH. lia.
Qed.

Lemma replace_count_char (c : Z) (s p r : text) :
  p <> [] ->
  (count (replace s p r) [c] + count s p * count p [c]
   = count s [c] + count s p * count r [c])%nat.
Proof.
  intros Hp. induction s as [| t IH | x t Hsw IH] using (scan_ind p Hp).
  - by rewrite replace_nil, !count_nil.
  - rewrite replace_match, count_match by done. rewrite !count_char_app. lia.
  - rewrite replace_skip, (count_skip x t p) by done.
    rewrite !count_char_cons. lia.
Qed.

(** ** When a replacement cannot assemble a pattern *)

Lemma disjoint_spec (a b : text) :
  disjoint a b = true <-> forall c, In c a -> In c b -> False.
Proof.
  unfold disjoint. rewrite forallb_forall. split.
  - intros H c Ha Hb. specialize (H c Ha). apply negb_true_iff in H.
    assert (existsb (Z.eqb c) b = true) as Hex; [|congruence].
    apply existsb_exists. exists c. split; [done | apply Z.eqb_refl].
  - intros H c Ha. apply negb_true_iff.
    destruct (existsb (Z.eqb c) b) eqn:Hex; [|done].
    apply existsb_exists in Hex as (x & Hx & Hcx).
    apply Z.eqb_eq in Hcx as <-. exfalso. eauto.
Qed.

Lemma disjoint_cons_r (r q : text) (a : Z) :
  disjoint r (a :: q) = true -> disjoint r q = true.
Proof.
  rewrite !disjoint_spec. intros H c Hr Hq. apply (H c Hr). by right.
Qed.

Lemma disjoint_cons_l (r q : text) (a : Z) :
  disjoint (a :: r) q = true -> disjoint r q = true.
Proof.
  rewrite !disjoint_spec. intros H c Hr Hq. apply (H c); [by right | done].
Qed.

Lemma disjoint_heads (r q : text) (a b : Z) :
  disjoint (a :: r) (b :: q) = true -> a <> b.
Proof.
  rewrite disjoint_spec. intros H ->. apply (H b); by left.
Qed.

Lemma startswith_disjoint (r q x : text) :
  r <> [] -> q <> [] -> disjoint r q = true -> startswith (r ++ x) q = false.
Proof.
  destruct r as [|a r]; [done|]. destruct q as [|b q]; [done|].
  intros _ _ H%disjoint_heads. simpl.
  destruct (b =? a) eqn:Hba; [|done]. apply Z.eqb_eq in Hba. congruence.
Qed.

Lemma contains_app_disjoint (r q x : text) :
  q <> [] -> disjoint r q = true -> contains (r ++ x) q = contains x q.
Proof.
  intros Hq. induction r as [|a r IH]; intros Hd; [done|].
  change ((a :: r) ++ x) with (a :: (r ++ x)). cbn [contains].
  change (a :: (r ++ x)) with ((a :: r) ++ x).
  rewrite startswith_disjoint by done. simpl.
  apply IH. by apply disjoint_cons_l in Hd.
Qed.

(** A prefix of the rewritten text that avoids the characters of the
    replacement was already a prefix of the original. *)
Lemma startswith_replace (p r : text) :
  p <> [] -> r <> [] ->
  forall s q, disjoint r q = true ->
    startswith (replace s p r) q = true -> startswith s q = true.
Proof.
  intros Hp Hr s.
  induction s as [| t IH | c t Hsw IH] using (scan_ind p Hp); intros q Hd H.
  - by rewrite replace_nil in H.
  - rewrite replace_match in H by done.
    destruct q as [|b q]; [done|].
    by rewrite startswith_disjoint in H.
  - rewrite replace_skip in H by done.
    destruct q as [|b q]; [done|].
    apply startswith_cons in H as [-> H]. apply startswith_cons.
    split; [done|]. apply IH; [|done]. by apply disjoint_cons_r in Hd.
Qed.

(** No occurrence of [q] appears that was not there before. *)
Lemma replace_keeps_absent (s p r q : text) :
  p <> [] -> r <> [] -> disjoint r q = true ->
  contains s q = false -> contains (replace s p r) q = false.
Proof.
  intros Hp Hr Hd.
  induction s as [| t IH | c t Hsw IH] using (scan_ind p Hp); intros H.
  - by rewrite replace_nil.
  - assert (q <> []) as Hq by (intros ->; by destruct (p ++ t)).
    rewrite replace_match by done. rewrite contains_app_disjoint by done.
    apply IH. destruct (contains t q) eqn:Ht; [|done].
    by rewrite (contains_app_r p t q Ht) in H.
  - apply contains_cons_false in H as [Hc Ht].
    rewrite replace_skip by done. apply contains_cons_false.
    split; [|by apply IH].
    destruct (startswith (c :: replace t p r) q) eqn:Hq; [|done].
    rewrite <- (replace_skip c t p r Hsw) in Hq.
    apply startswith_replace in Hq; [congruence | done..].
Qed.

(** After [replace] nothing of the pattern is left. *)
Lemma replace_removes (s p r : text) :
  p <> [] -> r <> [] -> disjoint r p = true ->
  contains (replace s p r) p = false.
Proof.
  intros Hp Hr Hd.
  induction s as [| t IH | c t Hsw IH] using (scan_ind p Hp).
  - rewrite replace_nil by done. by apply contains_nil_l.
  - rewrite replace_match by done. by rewrite contains_app_disjoint.
  - rewrite replace_skip by done. apply contains_cons_false. split; [|done].
    destruct (startswith (c :: replace t p r) p) eqn:Hq; [|done].
    rewrite <- (replace_skip c t p r Hsw) in Hq.
    apply startswith_replace in Hq; [congruence | done..].
Qed.

(** ** The primitives on small inputs *)

Example count_does_not_overlap : count [1; 1; 1; 1; 1] [1; 1] = 2%nat.
Proof. reflexivity. Qed.

Example replace_is_leftmost : replace [1; 2; 1; 2; 1] [1; 2; 1] [7] = [7; 2; 1].
Proof. reflexivity. Qed.

Example replace_empty_pattern : replace [1; 2] [] [9] = [9; 1; 9; 2; 9].
Proof. reflexivity. Qed.

Example dict_display_overwrites :
  dict_display [([1], [10]); ([2], [20]); ([1], [30])] = [([1], [30]); ([2], [20])].
Proof. reflexivity. Qed.

Example universal_newlines_example :
  universal_newlines [65; CR; LF; 66; CR; 67; LF] = [65; LF; 66; LF; 67; LF].
Proof. reflexivity. Qed.

Example utf8_rejects_overlong : utf8_decode [xc0; x80] = None.
Proof. reflexivity. Qed.

Example utf8_rejects_surrogate : utf8_decode [xed; xa0; x80] = None.
Proof. reflexivity. Qed.

Example utf8_euro : utf8_decode [xe2; x82; xac] = Some [0x20AC].
Proof. reflexivity. Qed.

Example cp1252_rejects_0x81 : cp1252_decode [x81] = None.
Proof. reflexivity. Qed.

Example posix_suffix_lower_example :
  posix_suffix_lower "site/Index.PHP" = ".php"%string /\
  posix_suffix_lower "site/a.php.backup" = ".backup"%string /\
  posix_suffix_lower "site/.htaccess" = ""%string.
Proof. repeat split; reflexivity. Qed.

(** The scenario of the specification: the garbled word three times; a
    live run corrects it three times and leaves the original in the
    backup. *)
Example scenario_spaeter :
  let r := process_file posix "site/a.php" false example_world in
  r.1 = Return (3%nat, true) /\
  stdout r.2 = [MsgFix [0xC3; 0xA4] [0xE4] 3; MsgRepaired 3] /\
  (files r.2 !! "site/a.php"%string) ≫= utf8_decode
    = Some (SPAETER ++ [0x20] ++ SPAETER ++ [0x20] ++ SPAETER) /\
  files r.2 !! "site/a.php.backup"%string = Some spaeter_bytes.
Proof. vm_compute. repeat split; reflexivity. Qed.

(** * Properties of the pass *)

(** ** The loop of [process_file] against [substitute_all] *)

Lemma substitute_all_cons (p r : text) (table : dict) (s : text) :
  substitute_all ((p, r) :: table) s
  = ((substitute_all table (replace s p r)).1,
     (count s p + (substitute_all table (replace s p r)).2)%nat).
Proof. simpl. by destruct (substitute_all table (replace s p r)). Qed.

Lemma apply_fixes_spec (items : dict) (content : text) (total : nat)
    (w : world) :
  apply_fixes items content total w
  = (Return ((substitute_all items content).1,
             (total + (substitute_all items content).2)%nat),
     World (files w) (dirs w) (stdout w ++ fix_messages items content)).
Proof.
  revert content total w.
  induction items as [|[p r] items IH]; intros content total w.
  - simpl. rewrite Nat.add_0_r, app_nil_r. by destruct w.
  - rewrite substitute_all_cons. cbn [apply_fixes fix_messages fst snd].
    destruct (0 <? count content p)%nat eqn:Hpos.
    + unfold mbind, IO_bind, print. rewrite IH. cbn [files dirs stdout].
      rewrite <- app_assoc. do 3 f_equal. lia.
    + apply Nat.ltb_ge in Hpos.
      assert (count content p = O) as Hz by lia.
      rewrite IH, (replace_id _ _ _ Hz), Hz. done.
Qed.

Lemma substitute_all_app (t1 t2 : dict) (s : text) :
  substitute_all (t1 ++ t2) s
  = ((substitute_all t2 (substitute_all t1 s).1).1,
     ((substitute_all t1 s).2 + (substitute_all t2 (substitute_all t1 s).1).2)%nat).
Proof.
  revert s. induction t1 as [|[p r] t1 IH]; intros s.
  - simpl. by destruct (substitute_all t2 s).
  - change (((p, r) :: t1) ++ t2) with ((p, r) :: (t1 ++ t2)).
    rewrite !substitute_all_cons, IH. cbn [fst snd]. f_equal. lia.
Qed.


Lemma length_entry_counts (table : dict) (s : text) :
  length (entry_counts table s) = length table.
Proof.
  revert s. induction table as [|[p r] table IH]; intros s; simpl; auto.
Qed.

(** The count of the entry at position [i] is taken in the text the
    entries before it produced. *)
Lemma entry_counts_lookup (table : dict) (s : text) (i : nat) (p r : text) :
  table !! i = Some (p, r) ->
  entry_counts table s !! i = Some (count (text_before table i s) p).
Proof.
  unfold text_before. revert s i.
  induction table as [|[p' r'] table IH]; intros s [|i] H; try done.
  - simpl in H. by injection H as -> ->.
  - simpl in H. cbn [entry_counts take]. rewrite substitute_all_cons.
    cbn [fst]. by apply IH.
Qed.

(** ** Soundness of the analysis *)

Lemma nonempty_true (a : text) : nonempty a = true -> a <> [].
Proof. by destruct a. Qed.

Lemma cannot_fire_sound (gone : list text) (p s : text) :
  absent s gone -> cannot_fire gone p = true -> count s p = O.
Proof.
  intros Hgone Hfire. apply existsb_exists in Hfire as (d & Hd & Hpd).
  apply list_elem_of_In in Hd.
  pose proof (proj1 (Forall_forall _ _) Hgone d Hd) as Hsd. simpl in Hsd.
  assert (p <> []) as Hp.
  { intros ->. destruct d; [by destruct s | done]. }
  apply count_zero_iff; [done|].
  destruct (contains s p) eqn:Hsp; [|done].
  by rewrite (contains_trans s p d Hpd Hsp) in Hsd.
Qed.

Lemma gone_step_sound (gone : list text) (p r s : text) :
  absent s gone -> absent (replace s p r) (gone_step gone (p, r)).
Proof.
  intros Hgone. unfold gone_step.
  destruct (cannot_fire gone p) eqn:Hfire.
  - pose proof (cannot_fire_sound gone p s Hgone Hfire) as Hz.
    rewrite (replace_id _ _ _ Hz). constructor; [|done].
    apply count_zero_iff; [|done]. intros ->. by destruct s.
  - destruct (nonempty p && nonempty r) eqn:Hne; [|constructor].
    apply andb_true_iff in Hne as [Hp%nonempty_true Hr%nonempty_true].
    apply Forall_app. split.
    + destruct (disjoint r p) eqn:Hd; constructor; [|done].
      by apply replace_removes.
    + apply Forall_forall. intros d [Hd Hin]%list_elem_of_filter.
      apply replace_keeps_absent; try done.
      by apply (proj1 (Forall_forall _ _) Hgone).
Qed.

Lemma gone_fold_sound (table : dict) (gone : list text) (s : text) :
  absent s gone ->
  absent (substitute_all table s).1 (fold_left gone_step table gone).
Proof.
  revert gone s. induction table as [|[p r] table IH]; intros gone s H; [done|].
  rewrite substitute_all_cons. cbn [fold_left fst].
  apply IH. by apply gone_step_sound.
Qed.

(** Whatever the input, the patterns of [gone_after] are absent from the
    result of a pass. *)
Lemma gone_after_sound (table : dict) (s : text) :
  absent (substitute_all table s).1 (gone_after table).
Proof. apply gone_fold_sound. constructor. Qed.

Lemma idle_entries_sound (table : dict) (gone : list text) (s : text) :
  absent s gone ->
  Forall2 (fun (idle : bool) n => idle = true -> n = O)
          (idle_entries gone table) (entry_counts table s).
Proof.
  revert gone s. induction table as [|[p r] table IH]; intros gone s H.
  - constructor.
  - cbn [idle_entries entry_counts fst]. constructor.
    + by apply cannot_fire_sound.
    + apply IH. by apply gone_step_sound.
Qed.

(** A text that holds no pattern of the table passes unchanged. *)
Lemma substitute_all_absent (table : dict) (s : text) :
  Forall (fun e => count s e.1 = O) table -> substitute_all table s = (s, O).
Proof.
  induction table as [|[p r] table IH]; intros H; [done|].
  apply Forall_cons in H as [Hp Hrest]. cbn [fst] in Hp.
  rewrite substitute_all_cons, (replace_id _ _ _ Hp), Hp, IH; done.
Qed.

Lemma substitute_all_zero (table : dict) (s : text) :
  (substitute_all table s).2 = O -> Forall (fun e => count s e.1 = O) table.
Proof.
  induction table as [|[p r] table IH]; intros H; [constructor|].
  rewrite substitute_all_cons in H. cbn [snd] in H.
  assert (count s p = O) as Hp by lia.
  rewrite (replace_id _ _ _ Hp) in H.
  constructor; [done|]. apply IH. lia.
Qed.

(** * Properties of the codecs *)

Lemma byte_val_range (b : byte) : 0 <= byte_val b < 256.
Proof.
  unfold byte_val. pose proof (Byte.to_N_bounded b). lia.
Qed.

Lemma byte_val_of (z : Z) : 0 <= z < 256 -> byte_val (byte_of z) = z.
Proof.
  intros Hz. unfold byte_val, byte_of.
  destruct (Byte.of_N (Z.to_N z)) as [b|] eqn:Hb.
  - apply Byte.to_of_N in Hb. lia.
  - apply Byte.of_N_None_iff in Hb. lia.
Qed.

Lemma in_range_iff (lo hi : Z) (b : byte) :
  in_range lo hi b = true <-> lo <= byte_val b <= hi.
Proof. unfold in_range. rewrite andb_true_iff, !Z.leb_le. tauto. Qed.

Lemma scalar_value_iff (c : Z) :
  scalar_value c = true <-> 0 <= c < 0xD800 \/ 0xE000 <= c <= 0x10FFFF.
Proof.
  unfold scalar_value.
  rewrite orb_true_iff, !andb_true_iff, !Z.leb_le, !Z.ltb_lt. tauto.
Qed.

Ltac bool_to_Z :=
  repeat match goal with
  | H : (_ && _) = true |- _ => apply andb_true_iff in H as [? ?]
  | H : (_ && _) = false |- _ => apply andb_false_iff in H as [?|?]
  | H : (_ || _) = false |- _ => apply orb_false_iff in H as [? ?]
  | H : (_ || _) = true |- _ => apply orb_true_iff in H as [?|?]
  | H : negb _ = true |- _ => apply negb_true_iff in H
  | H : negb _ = false |- _ => apply negb_false_iff in H
  | H : (_ <=? _) = true |- _ => apply Z.leb_le in H
  | H : (_ <=? _) = false |- _ => apply Z.leb_gt in H
  | H : (_ <? _) = true |- _ => apply Z.ltb_lt in H
  | H : (_ <? _) = false |- _ => apply Z.ltb_ge in H
  | H : (_ =? _) = true |- _ => apply Z.eqb_eq in H
  | H : (_ =? _) = false |- _ => apply Z.eqb_neq in H
  | H : in_range _ _ _ = true |- _ => apply in_range_iff in H
  end.

Ltac decide_tests :=
  repeat match goal with
  | |- context [if (?a =? ?b) then _ else _] =>
      let E := fresh "E" in
      destruct (a =? b) eqn:E; bool_to_Z;
      try (exfalso; Z.div_mod_to_equations; lia)
  | |- context [if ?b then _ else _] =>
      let E := fresh "E" in
      destruct b eqn:E; bool_to_Z;
      try (exfalso; Z.div_mod_to_equations; lia)
  end.

Lemma utf8_decode_cons (b0 : byte) (r0 : list byte) (s : text) :
  utf8_decode (b0 :: r0) = Some s ->
  exists c rest s',
    s = c :: s' /\ utf8_decode rest = Some s' /\
    (length rest <= length r0)%nat /\ scalar_value c = true.
Proof.
  intros H. cbn [utf8_decode] in H. cbv zeta in H.
  pose proof (byte_val_range b0) as Hb0.
  destruct (byte_val b0 <? 0x80) eqn:H1.
  { apply fmap_Some in H as (s' & Hs' & ->).
    exists (byte_val b0), r0, s'. split_and!; try done.
    apply scalar_value_iff. lia. }
  destruct ((0xC2 <=? byte_val b0) && (byte_val b0 <=? 0xDF)) eqn:H2.
  { destruct r0 as [|b1 r1]; [done|].
    destruct (in_range 0x80 0xBF b1) eqn:R1; [|done].
    apply fmap_Some in H as (s' & Hs' & ->).
    eexists _, r1, s'. split_and!; try done; [simpl; lia|].
    apply scalar_value_iff. bool_to_Z. lia. }
  destruct ((0xE0 <=? byte_val b0) && (byte_val b0 <=? 0xEF)) eqn:H3.
  { destruct r0 as [|b1 [|b2 r2]]; try done.
    destruct (in_range _ _ b1 && in_range 0x80 0xBF b2) eqn:R; [|done].
    apply fmap_Some in H as (s' & Hs' & ->).
    eexists _, r2, s'. split_and!; try done; [simpl; lia|].
    apply scalar_value_iff.
    destruct (byte_val b0 =? 0xE0) eqn:E0, (byte_val b0 =? 0xED) eqn:ED;
      bool_to_Z; lia. }
  destruct ((0xF0 <=? byte_val b0) && (byte_val b0 <=? 0xF4)) eqn:H4; [|done].
  destruct r0 as [|b1 [|b2 [|b3 r3]]]; try done.
  destruct (in_range _ _ b1 && in_range 0x80 0xBF b2 && in_range 0x80 0xBF b3)
    eqn:R; [|done].
  apply fmap_Some in H as (s' & Hs' & ->).
  eexists _, r3, s'. split_and!; try done; [simpl; lia|].
  apply scalar_value_iff.
  destruct (byte_val b0 =? 0xF0) eqn:E0, (byte_val b0 =? 0xF4) eqn:E4;
    bool_to_Z; lia.
Qed.

Lemma utf8_decode_scalar (bs : list byte) (s : text) :
  utf8_decode bs = Some s -> Forall (fun c => scalar_value c = true) s.
Proof.
  remember (length bs) as n eqn:Hn. revert bs s Hn.
  induction n as [n IH] using lt_wf_ind. intros [|b0 r0] s Hn H.
  - injection H as <-. constructor.
  - apply utf8_decode_cons in H as (c & rest & s' & -> & Hrest & Hlen & Hc).
    constructor; [done|].
    apply (IH (length rest)) with rest; [simpl in Hn; lia | done | done].
Qed.

Lemma cp1252_code_scalar (v c : Z) :
  0 <= v < 256 -> cp1252_code v = Some c -> scalar_value c = true.
Proof.
  intros Hv H.
  assert (forallb (fun v => match cp1252_code v with
                            | Some c => scalar_value c
                            | None => true
                            end) (seqZ 0 256) = true) as Hall
    by (vm_compute; reflexivity).
  rewrite forallb_forall in Hall. specialize (Hall v).
  rewrite H in Hall. apply Hall. apply list_elem_of_In, elem_of_seqZ. lia.
Qed.

Lemma cp1252_decode_scalar (bs : list byte) (s : text) :
  cp1252_decode bs = Some s -> Forall (fun c => scalar_value c = true) s.
Proof.
  revert s. induction bs as [|b bs IH]; intros s H; simpl in H.
  - injection H as <-. constructor.
  - destruct (cp1252_decode_byte b) as [c|] eqn:Hc; [|done].
    apply fmap_Some in H as (s' & Hs' & ->).
    constructor; [|by apply IH].
    apply (cp1252_code_scalar (byte_val b)); [apply byte_val_range | done].
Qed.

Lemma latin1_decode_scalar (bs : list byte) (s : text) :
  latin1_decode bs = Some s -> Forall (fun c => scalar_value c = true) s.
Proof.
  intros H. injection H as <-. apply Forall_map, Forall_forall. intros b _.
  apply scalar_value_iff. pose proof (byte_val_range b). simpl. lia.
Qed.

Lemma decode_scalar (enc : encoding) (bs : list byte) (s : text) :
  decode enc bs = Some s -> Forall (fun c => scalar_value c = true) s.
Proof.
  destruct enc; simpl;
    eauto using utf8_decode_scalar, cp1252_decode_scalar, latin1_decode_scalar.
Qed.

Lemma utf8_decode_encode_char (c : Z) (bytes rest : list byte) :
  utf8_encode_char c = Some bytes ->
  utf8_decode (bytes ++ rest) = cons c <$> utf8_decode rest.
Proof.
  unfold utf8_encode_char. intros H.
  destruct (scalar_value c) eqn:Hc; [|done].
  apply scalar_value_iff in Hc. cbn [negb] in H.
  destruct (c <? 0x80) eqn:H1; bool_to_Z.
  { injection H as <-. cbn [app utf8_decode]. cbv zeta.
    rewrite byte_val_of by lia. decide_tests. done. }
  destruct (c <? 0x800) eqn:H2; bool_to_Z.
  { injection H as <-. cbn [app utf8_decode]. cbv zeta. unfold in_range.
    rewrite !byte_val_of by (Z.div_mod_to_equations; lia).
    decide_tests. do 2 f_equal. Z.div_mod_to_equations. lia. }
  destruct (c <? 0x10000) eqn:H3; bool_to_Z.
  { injection H as <-. cbn [app utf8_decode]. cbv zeta. unfold in_range.
    rewrite !byte_val_of by (Z.div_mod_to_equations; lia).
    decide_tests; do 2 f_equal; Z.div_mod_to_equations; lia. }
  injection H as <-. cbn [app utf8_decode]. cbv zeta. unfold in_range.
  rewrite !byte_val_of by (Z.div_mod_to_equations; lia).
  decide_tests; do 2 f_equal; Z.div_mod_to_equations; lia.
Qed.

Lemma utf8_encode_char_scalar (c : Z) :
  scalar_value c = true -> is_Some (utf8_encode_char c).
Proof.
  intros Hc. unfold utf8_encode_char. rewrite Hc. cbn [negb].
  repeat match goal with |- context [if ?b then _ else _] => destruct b end;
    eauto.
Qed.

(** A text of scalar values can always be written. *)
Lemma utf8_encode_scalar (s : text) :
  Forall (fun c => scalar_value c = true) s -> is_Some (utf8_encode s).
Proof.
  induction 1 as [|c s Hc Hs [rest IH]]; simpl; [eauto|].
  destruct (utf8_encode_char_scalar c Hc) as [bs ->]. rewrite IH. eauto.
Qed.

(** What [encode] writes, [decode] reads back. *)
Lemma utf8_decode_encode (s : text) (bs : list byte) :
  utf8_encode s = Some bs -> utf8_decode bs = Some s.
Proof.
  revert bs. induction s as [|c s IH]; intros bs H; simpl in H.
  - by injection H as <-.
  - destruct (utf8_encode_char c) as [b1|] eqn:Hc; [|done].
    destruct (utf8_encode s) as [b2|] eqn:Hs; [|done].
    injection H as <-.
    rewrite (utf8_decode_encode_char c b1 b2 Hc), (IH b2 eq_refl). done.
Qed.

(** * Properties of the file processor *)

(** ** The decoding loop *)

Lemma first_decodable_latin1 (bs : list byte) :
  exists s enc, first_decodable ENCODINGS bs = Some (s, enc).
Proof.
  unfold ENCODINGS. cbn [first_decodable].
  destruct (decode UTF_8 bs); [eauto|].
  destruct (decode WINDOWS_1252 bs); [eauto|].
  cbn [decode latin1_decode]. eauto.
Qed.

Lemma decoded_text_total (bs : list byte) : is_Some (decoded_text bs).
Proof.
  unfold decoded_text.
  destruct (first_decodable_latin1 bs) as (s & enc & ->). by eexists.
Qed.

Lemma try_encodings_spec (os : platform) (file_path : string)
    (encodings : list encoding) (w : world) :
  try_encodings os file_path encodings w =
  match encodings with
  | [] => (Return (None, None), w)
  | _ :: _ =>
      if denied os (OpenRead file_path)
      then (Raise (OSError (OpenRead file_path)), w)
      else
        match files w !! file_path with
        | None => (Raise (OSError (OpenRead file_path)), w)
        | Some bs =>
            match first_decodable encodings bs with
            | Some (s, enc) => (Return (Some (universal_newlines s), Some enc), w)
            | None => (Return (None, None), w)
            end
        end
  end.
Proof.
  induction encodings as [|enc rest IH]; [done|].
  cbn [try_encodings first_decodable].
  unfold try_except, mbind, IO_bind, read_text.
  destruct (denied os (OpenRead file_path)); [done|].
  destruct (files w !! file_path) as [bs|]; [|done].
  destruct (decode enc bs) as [s|]; [done|].
  cbn [is_UnicodeDecodeError]. rewrite IH.
  destruct rest; [done|]. done.
Qed.

Lemma first_decodable_scalar (encodings : list encoding) (bs : list byte)
    (s : text) (enc : encoding) :
  first_decodable encodings bs = Some (s, enc) ->
  decode enc bs = Some s /\ Forall (fun c => scalar_value c = true) s.
Proof.
  induction encodings as [|e rest IH]; [done|]. cbn [first_decodable].
  destruct (decode e bs) as [s'|] eqn:He; [|done].
  intros H. injection H as -> ->. eauto using decode_scalar.
Qed.

Lemma decoded_text_scalar (bs : list byte) (s : text) :
  decoded_text bs = Some s -> Forall (fun c => scalar_value c = true) s.
Proof.
  unfold decoded_text. intros ([s0 enc] & H & ->)%fmap_Some.
  apply first_decodable_scalar in H as [_ H].
  unfold universal_newlines. repeat apply replace_Forall; try done.
  all: by repeat constructor.
Qed.

Lemma substitute_all_Forall (P : Z -> Prop) (table : dict) (s : text) :
  Forall (fun e => Forall P e.2) table -> Forall P s ->
  Forall P (substitute_all table s).1.
Proof.
  revert s. induction table as [|[p r] table IH]; intros s Ht Hs; [done|].
  apply Forall_cons in Ht as [Hr Ht]. rewrite substitute_all_cons. cbn [fst].
  apply IH; [done|]. by apply replace_Forall.
Qed.

Lemma ENCODING_FIXES_scalar :
  Forall (fun e => Forall (fun c => scalar_value c = true) e.2) ENCODING_FIXES.
Proof.
  apply Forall_forall. intros e He%list_elem_of_In.
  assert (forallb (fun e => forallb scalar_value e.2) ENCODING_FIXES = true)
    as Hall by (vm_compute; reflexivity).
  rewrite forallb_forall in Hall. specialize (Hall e He).
  rewrite forallb_forall in Hall.
  apply Forall_forall. intros c Hc%list_elem_of_In. by apply Hall.
Qed.

Lemma write_newlines_scalar (sep : line_separator) (s : text) :
  Forall (fun c => scalar_value c = true) s ->
  Forall (fun c => scalar_value c = true) (write_newlines sep s).
Proof.
  intros Hs. unfold write_newlines. case_decide; [done|].
  apply replace_Forall; [done|]. destruct sep; by repeat constructor.
Qed.

(** The text [process_file] writes can always be encoded. *)
Lemma fixed_text_encodable (sep : line_separator) (bs : list byte) (s : text) :
  decoded_text bs = Some s ->
  is_Some (utf8_encode (write_newlines sep (fixed_text s))).
Proof.
  intros H. apply utf8_encode_scalar, write_newlines_scalar.
  apply substitute_all_Forall; [apply ENCODING_FIXES_scalar|].
  by apply decoded_text_scalar in H.
Qed.

(** ** Changed means replaced *)

Lemma substitute_all_shrinks (table : dict) (s : text) :
  forallb (fun e => (length e.2 <? length e.1)%nat) table = true ->
  (length (substitute_all table s).1 + (substitute_all table s).2
   <= length s)%nat.
Proof.
  revert s. induction table as [|[p r] table IH]; intros s H; [simpl; lia|].
  cbn [forallb fst snd] in H. apply andb_true_iff in H as [Hpr H].
  apply Nat.ltb_lt in Hpr. rewrite substitute_all_cons. cbn [fst snd].
  specialize (IH (replace s p r) H).
  assert (p <> []) as Hp by (destruct p; [simpl in Hpr; lia | done]).
  pose proof (replace_length s p r Hp). nia.
Qed.

Lemma fixed_count_zero (s : text) : fixed_count s = O -> fixed_text s = s.
Proof.
  intros H. unfold fixed_text.
  by rewrite (substitute_all_absent _ _ (substitute_all_zero _ _ H)).
Qed.

Lemma fixed_count_pos (s : text) : (0 < fixed_count s)%nat -> fixed_text s <> s.
Proof.
  intros H Heq.
  assert (forallb (fun e => (length e.2 <? length e.1)%nat) ENCODING_FIXES = true)
    as Hall by (vm_compute; reflexivity).
  pose proof (substitute_all_shrinks ENCODING_FIXES s Hall) as Hlen.
  unfold fixed_text, fixed_count in *. rewrite Heq in Hlen. lia.
Qed.

Lemma fix_messages_zero (table : dict) (s : text) :
  (substitute_all table s).2 = O -> fix_messages table s = [].
Proof.
  revert s. induction table as [|[p r] table IH]; intros s H; [done|].
  rewrite substitute_all_cons in H. cbn [snd] in H.
  assert (count s p = O) as Hp by lia.
  cbn [fix_messages]. rewrite Hp, (replace_id _ _ _ Hp). cbn [Nat.ltb Nat.leb app].
  apply IH. rewrite (replace_id _ _ _ Hp) in H. lia.
Qed.

(** ** Every call follows a run *)

Lemma try_encodings_cases (os : platform) (file_path : string) (w : world) :
  ((denied os (OpenRead file_path) = true \/ files w !! file_path = None) /\
   try_encodings os file_path ENCODINGS w
   = (Raise (OSError (OpenRead file_path)), w))
  \/
  (exists bs s enc,
     denied os (OpenRead file_path) = false /\
     files w !! file_path = Some bs /\
     decoded_text bs = Some s /\
     try_encodings os file_path ENCODINGS w = (Return (Some s, Some enc), w)).
Proof.
  rewrite try_encodings_spec.
  destruct (denied os (OpenRead file_path)) eqn:Hd; [left; auto|].
  destruct (files w !! file_path) as [bs|] eqn:Hf; [|left; auto].
  right. unfold decoded_text.
  destruct (first_decodable_latin1 bs) as (s & enc & Hdec).
  exists bs, (universal_newlines s), enc. rewrite Hdec. by split_and!.
Qed.

Lemma log_nil (w : world) : log w [] = w.
Proof. destruct w. unfold log. simpl. by rewrite app_nil_r. Qed.

Lemma log_log (w : world) (m1 m2 : list message) :
  log (log w m1) m2 = log w (m1 ++ m2).
Proof. unfold log. simpl. by rewrite app_assoc. Qed.

Lemma log_set_file (w : world) (p : string) (bs : list byte) (ms : list message) :
  set_file p bs (log w ms) = log (set_file p bs w) ms.
Proof. done. Qed.

(** Every call of [process_file] returns, along one of the runs. *)
Lemma process_file_runs (os : platform) (file_path : string) (dry_run : bool)
    (w : world) :
  exists r w',
    process_file os file_path dry_run w = (Return r, w') /\
    process_file_run os file_path dry_run w r w'.
Proof.
  unfold process_file, process_file_try, try_except.
  unfold mbind at 1, IO_bind at 1.
  destruct (try_encodings_cases os file_path w)
    as [[Hno ->] | (bs & s & enc & Hd & Hf & Hs & ->)].
  { cbn [is_Exception]. eexists _, _. split; [reflexivity|].
    by apply run_read_error. }
  unfold mbind at 1, IO_bind at 1. rewrite apply_fixes_spec. cbn [Nat.add].
  fold (fixed_text s). fold (fixed_count s).
  destruct (Nat.eq_dec (fixed_count s) O) as [Hz | Hnz].
  { pose proof (fixed_count_zero s Hz) as Heq.
    rewrite decide_False by (intros H; by apply H).
    unfold mret, IO_ret. eexists _, _. split; [reflexivity|].
    unfold fixed_count in Hz. rewrite (fix_messages_zero _ _ Hz).
    fold (log w []). rewrite log_nil. by eapply run_unchanged. }
  assert (0 < fixed_count s)%nat as Hpos by lia.
  rewrite decide_True by (by apply fixed_count_pos).
  fold (log w (fix_messages ENCODING_FIXES s)).
  destruct dry_run; cbn [negb].
  { unfold mbind, IO_bind, print, mret, IO_ret.
    eexists _, _. split; [reflexivity|].
    unfold log, set_file; cbn [files dirs stdout]; rewrite <- ?app_assoc.
    by eapply run_would_repair. }
  unfold mbind, IO_bind, copy2. cbn [files log].
  fold (backup_path_of file_path).
  destruct (denied os (Copy file_path (backup_path_of file_path))) eqn:Hc.
  { cbn [is_Exception]. unfold print, mret, IO_ret.
    eexists _, _. split; [reflexivity|].
    unfold log, set_file; cbn [files dirs stdout]; rewrite <- ?app_assoc.
    by eapply run_copy_error. }
  rewrite Hf. unfold write_text.
  destruct (denied os (OpenWrite file_path)) eqn:Ho.
  { cbn [is_Exception]. unfold print, mret, IO_ret.
    eexists _, _. split; [reflexivity|].
    unfold log, set_file; cbn [files dirs stdout]; rewrite <- ?app_assoc.
    by eapply run_open_error. }
  destruct (fixed_text_encodable (linesep os) bs s Hs) as [bs' Henc].
  rewrite Henc.
  destruct (denied os (WriteData file_path)) eqn:Hw.
  { cbn [is_Exception]. unfold print, mret, IO_ret.
    eexists _, _. split; [reflexivity|].
    unfold log, set_file; cbn [files dirs stdout]; rewrite <- ?app_assoc.
    by eapply run_write_error. }
  unfold print, mret, IO_ret.
  eexists _, _. split; [reflexivity|].
  unfold log, set_file; cbn [files dirs stdout]; rewrite <- ?app_assoc.
  by eapply run_repaired.
Qed.

(** ** What a run leaves of the world *)

Lemma backup_path_fresh (file_path : string) :
  backup_path_of file_path <> file_path.
Proof.
  unfold backup_path_of. induction file_path as [|a p IH]; [done|].
  simpl. intros H. injection H as H. by apply IH.
Qed.

Lemma process_file_run_dirs os file_path dry_run w r w' :
  process_file_run os file_path dry_run w r w' -> dirs w' = dirs w.
Proof. by destruct 1. Qed.

Lemma process_file_run_stdout os file_path dry_run w r w' :
  process_file_run os file_path dry_run w r w' ->
  exists ms, stdout w' = stdout w ++ ms /\ MsgUnknownEncoding ∉ ms.
Proof.
  assert (forall table s, MsgUnknownEncoding ∉ fix_messages table s) as Hfix.
  { intros table. induction table as [|[p q] table IH]; intros s; simpl.
    - apply not_elem_of_nil.
    - rewrite elem_of_app. intros [H | H]; [|by apply (IH _ H)].
      destruct (0 <? count s p)%nat; [|by apply not_elem_of_nil in H].
      apply list_elem_of_singleton in H. done. }
  destruct 1; unfold log, set_file; cbn [stdout].
  - eexists. split; [reflexivity|]. by rewrite list_elem_of_singleton.
  - exists []. split; [by rewrite app_nil_r | apply not_elem_of_nil].
  - eexists. split; [reflexivity|].
    rewrite elem_of_app, list_elem_of_singleton.
    intros [Hin | Hin]; [by apply Hfix in Hin | done].
  - eexists. split; [reflexivity|].
    rewrite elem_of_app, list_elem_of_singleton.
    intros [Hin | Hin]; [by apply Hfix in Hin | done].
  - eexists. split; [reflexivity|].
    rewrite elem_of_app, list_elem_of_singleton.
    intros [Hin | Hin]; [by apply Hfix in Hin | done].
  - eexists. split; [reflexivity|].
    rewrite elem_of_app, list_elem_of_singleton.
    intros [Hin | Hin]; [by apply Hfix in Hin | done].
  - eexists. split; [reflexivity|].
    rewrite elem_of_app, list_elem_of_singleton.
    intros [Hin | Hin]; [by apply Hfix in Hin | done].
Qed.


(** A dry run touches no file. *)
Lemma process_file_run_dry os file_path w r w' :
  process_file_run os file_path true w r w' -> files w' = files w.
Proof. by destruct 1. Qed.

(** A live run changes nothing, or the backup holds the old bytes and
    only the file and its backup differ. *)
Lemma process_file_run_backup os file_path dry_run w r w' :
  process_file_run os file_path dry_run w r w' ->
  files w' = files w \/
  exists bs,
    files w !! file_path = Some bs /\
    files w' !! backup_path_of file_path = Some bs /\
    forall p, p <> file_path -> p <> backup_path_of file_path ->
              files w' !! p = files w !! p.
Proof.
  pose proof (backup_path_fresh file_path) as Hne.
  destruct 1; unfold log, set_file; cbn [files]; auto; right; exists bs;
    split_and!; try done.
  all: try (intros p Hp1 Hp2).
  all: repeat (rewrite lookup_insert_ne by done).
  all: try done.
  all: by rewrite lookup_insert_eq.
Qed.

(** * Properties of the walker *)



Lemma main_missing (os : platform) (args : arguments) (w : world) :
  files w !! path args = None -> path args ∉ dirs w ->
  main os args w
  = (Raise (SystemExit 1),
     log w [MsgStarted (path args) (dry_run args); MsgNoSuchDirectory (path args)]).
Proof.
  intros Hf Hd. unfold main, mbind, IO_bind, print, path_exists, raise.
  cbn [files dirs stdout]. rewrite Hf.
  rewrite (bool_decide_eq_false_2 (is_Some None)) by (by intros []).
  rewrite (bool_decide_eq_false_2 _ Hd). cbn [orb negb].
  unfold log. cbn [files dirs stdout]. by rewrite <- ?app_assoc.
Qed.


(** ** Results of a call *)



Lemma ENCODING_FIXES_nonempty (i : nat) (p r : text) :
  ENCODING_FIXES !! i = Some (p, r) -> p <> [].
Proof.
  intros H.
  assert (forallb (fun e => nonempty e.1) ENCODING_FIXES = true) as Hall
    by (vm_compute; reflexivity).
  rewrite forallb_forall in Hall.
  apply (nonempty_true p), (Hall (p, r)), list_elem_of_In.
  by eapply list_elem_of_lookup_2.
Qed.

(** The result of a call that reads its file and, when it has to write,
    is not refused. *)
Lemma process_file_result (os : platform) (file_path : string)
    (dry_run : bool) (w : world) (bs : list byte) (s : text) :
  denied os (OpenRead file_path) = false ->
  files w !! file_path = Some bs ->
  decoded_text bs = Some s ->
  dry_run = true \/
    (denied os (Copy file_path (backup_path_of file_path)) = false /\
     denied os (OpenWrite file_path) = false /\
     denied os (WriteData file_path) = false) ->
  exists w',
    process_file os file_path dry_run w
    = (Return (fixed_count s, bool_decide (0 < fixed_count s)%nat), w') /\
    (dry_run = false -> (0 < fixed_count s)%nat ->
     exists bs',
       utf8_encode (write_newlines (linesep os) (fixed_text s)) = Some bs' /\
       files w' = <[file_path := bs']> (<[backup_path_of file_path := bs]> (files w))).
Proof.
  intros Hd Hf Hs Hio.
  destruct (process_file_runs os file_path dry_run w) as (r & w' & -> & Hrun).
  exists w'.
  destruct Hrun;
    repeat match goal with
    | H : _ \/ _ |- _ => destruct H
    | H : _ /\ _ |- _ => destruct H
    end; simplify_eq; try congruence.
  all: try (rewrite bool_decide_eq_false_2 by lia; split; [congruence | lia]).
  all: rewrite bool_decide_eq_true_2 by done; split; [done|]; intros; try done.
  by exists bs'.
Qed.

(** A call whose read is refused reports it and returns [(0, False)]. *)
Lemma process_file_read_error (os : platform) (file_path : string)
    (dry_run : bool) (w : world) :
  denied os (OpenRead file_path) = true \/ files w !! file_path = None ->
  process_file os file_path dry_run w
  = (Return (O, false), log w [MsgError (OSError (OpenRead file_path))]).
Proof.
  intros Hno.
  destruct (process_file_runs os file_path dry_run w) as (r & w' & -> & Hrun).
  destruct Hrun; try done; destruct Hno; congruence.
Qed.

Lemma first_decodable_spec (encodings : list encoding) (bs : list byte)
    (s : text) (enc : encoding) :
  first_decodable encodings bs = Some (s, enc) ->
  exists before after,
    encodings = before ++ enc :: after /\
    Forall (fun e => decode e bs = None) before /\
    decode enc bs = Some s.
Proof.
  induction encodings as [|e rest IH]; [done|]. cbn [first_decodable].
  destruct (decode e bs) as [s'|] eqn:He.
  - intros H. injection H as -> ->. by exists [], rest.
  - intros (before & after & -> & Hb & Hdec)%IH.
    exists (e :: before), after. split_and!; try done. by constructor.
Qed.

(** What a dry run prints for a file it can read. *)
Lemma process_file_dry_stdout (os : platform) (file_path : string) (w : world)
    (bs : list byte) (s : text) :
  denied os (OpenRead file_path) = false ->
  files w !! file_path = Some bs ->
  decoded_text bs = Some s ->
  stdout (process_file os file_path true w).2
  = stdout w ++ fix_messages ENCODING_FIXES s
    ++ (if bool_decide (0 < fixed_count s)%nat
        then [MsgWouldRepair (fixed_count s)] else []).
Proof.
  intros Hd Hf Hs.
  destruct (process_file_runs os file_path true w) as (r & w' & -> & Hrun).
  cbn [snd].
  destruct Hrun;
    repeat match goal with H : _ \/ _ |- _ => destruct H end;
    simplify_eq; try congruence.
  - rewrite bool_decide_eq_false_2 by lia.
    rewrite fix_messages_zero by done. by rewrite !app_nil_r.
  - by rewrite bool_decide_eq_true_2 by done.
Qed.



(** ** Occurrences that no replacement touches *)

Lemma existsb_eqb_false (h : Z) (u : text) :
  existsb (Z.eqb h) u = false <-> Forall (fun c => c <> h) u.
Proof.
  induction u as [|c u IH]; simpl.
  - split; [constructor | done].
  - rewrite orb_false_iff, IH, Forall_cons, Z.eqb_neq.
    split; intros [Hc Hu]; (split; [congruence | done]).
Qed.

Lemma count_skip_prefix (h : Z) (tl u y : text) :
  Forall (fun c => c <> h) u -> count (u ++ y) (h :: tl) = count y (h :: tl).
Proof.
  induction 1 as [|c u Hc Hu IH]; [done|].
  change ((c :: u) ++ y) with (c :: (u ++ y)).
  rewrite count_skip; [done|]. simpl.
  destruct (h =? c) eqn:Hhc; [|done]. apply Z.eqb_eq in Hhc. congruence.
Qed.

Lemma replace_skip_prefix (u y p x : text) :
  p <> [] -> disjoint u p = true -> replace (u ++ y) p x = u ++ replace y p x.
Proof.
  intros Hp. induction u as [|c u IH]; intros Hd; [done|].
  change ((c :: u) ++ y) with (c :: (u ++ y)).
  rewrite replace_skip.
  - simpl. f_equal. apply IH. by apply disjoint_cons_l in Hd.
  - destruct p as [|p0 p']; [done|]. simpl.
    destruct (p0 =? c) eqn:Hpc; [|done]. apply Z.eqb_eq in Hpc as ->.
    by apply disjoint_heads in Hd.
Qed.

Lemma count_cons_ge (h c : Z) (tl y : text) :
  Forall (fun c => c <> h) tl ->
  (count y (h :: tl) <= count (c :: y) (h :: tl))%nat.
Proof.
  intros Htl. destruct (startswith (c :: y) (h :: tl)) eqn:Hsw.
  - apply startswith_inv in Hsw. cbn [length drop] in Hsw.
    change ((h :: tl) ++ drop (length tl) y)
      with (h :: (tl ++ drop (length tl) y)) in Hsw.
    injection Hsw as -> Hy.
    change (h :: y) with ([h] ++ y). rewrite Hy at 2.
    change ([h] ++ tl ++ drop (length tl) y)
      with ((h :: tl) ++ drop (length tl) y).
    rewrite count_match by done. rewrite Hy at 1.
    rewrite count_skip_prefix by done. lia.
  - rewrite count_skip by done. lia.
Qed.

(** One replacement loses no occurrence of [q]. *)
Lemma replace_keeps_occurrences (q p x s : text) :
  apart q (p, x) = true ->
  (count s q <= count (replace s p x) q)%nat.
Proof.
  unfold apart. cbn [fst snd].
  destruct q as [|h tl]; [done|]. destruct p as [|p0 p']; [done|].
  intros H. apply andb_true_iff in H as [H Hstart].
  apply andb_true_iff in H as [H Htl]. apply andb_true_iff in H as [H Hx].
  apply andb_true_iff in H as [Hp' Htlp].
  apply negb_true_iff, existsb_eqb_false in Hx, Htl.
  assert (Forall (fun c => c <> h) p') as Hp'h.
  { apply Forall_forall. intros c Hc%list_elem_of_In ->.
    apply (proj1 (disjoint_spec _ _) Hp' h Hc). by left. }
  assert (forall t, startswith (p0 :: p' ++ t) (h :: tl) = false) as Hnostart.
  { intros t. simpl. destruct (h =? p0) eqn:Hh; [|done]. cbn [andb].
    apply Z.eqb_eq in Hh as ->. rewrite Z.eqb_refl in Hstart. cbn [negb orb] in Hstart.
    apply andb_true_iff in Hstart as [Hne1 Hne2].
    destruct p' as [|a p']; [done|]. destruct tl as [|b tl]; [done|].
    simpl. destruct (b =? a) eqn:Hba; [|done]. apply Z.eqb_eq in Hba as ->.
    exfalso. apply (proj1 (disjoint_spec _ _) Hp' a); [by left | by right; left]. }
  induction s as [| t IH | c t Hsw IH] using (scan_ind (p0 :: p') ltac:(done)).
  - rewrite replace_nil by done. lia.
  - rewrite replace_match by done. rewrite (count_skip_prefix h tl x) by done.
    change ((p0 :: p') ++ t) with (p0 :: (p' ++ t)).
    rewrite count_skip by apply Hnostart.
    rewrite count_skip_prefix by done. done.
  - rewrite replace_skip by done.
    destruct (startswith (c :: t) (h :: tl)) eqn:Hq.
    + apply startswith_inv in Hq.
      change ((h :: tl) ++ drop (length (h :: tl)) (c :: t))
        with (h :: (tl ++ drop (length tl) t)) in Hq.
      injection Hq as -> Ht. rewrite Ht in *.
      rewrite replace_skip_prefix in * by done.
      rewrite !count_skip_prefix in IH by done.
      change (h :: tl ++ ?y) with ((h :: tl) ++ y).
      rewrite !count_match by done. lia.
    + rewrite count_skip by done.
      etransitivity; [exact IH|]. by apply count_cons_ge.
Qed.

Lemma substitute_all_keeps_occurrences (q : text) (table : dict) (s : text) :
  forallb (apart q) table = true ->
  (count s q <= count (substitute_all table s).1 q)%nat.
Proof.
  revert s. induction table as [|[p x] table IH]; intros s H; [done|].
  cbn [forallb] in H. apply andb_true_iff in H as [Hpx Hrest].
  rewrite substitute_all_cons. cbn [fst].
  etransitivity; [by apply (replace_keeps_occurrences q p x)|]. by apply IH.
Qed.

(** ** Facts about the table *)

Lemma ENCODING_FIXES_gone :
  Forall (fun e => e.1 = O_UMLAUT_DOUBLE_WRONG \/ e.1 = O_UMLAUT_WRONG \/
                   e.1 ∈ gone_after ENCODING_FIXES) ENCODING_FIXES.
Proof.
  assert (forallb (fun e =>
            bool_decide (e.1 = O_UMLAUT_DOUBLE_WRONG)
            || bool_decide (e.1 = O_UMLAUT_WRONG)
            || bool_decide (e.1 ∈ gone_after ENCODING_FIXES))
            ENCODING_FIXES = true) as Hall by (vm_compute; reflexivity).
  rewrite forallb_forall in Hall.
  apply Forall_forall. intros e He%list_elem_of_In.
  specialize (Hall e He).
  apply orb_true_iff in Hall as [Hall | Hall];
    [apply orb_true_iff in Hall as [Hall | Hall]|];
    apply bool_decide_eq_true in Hall; auto.
Qed.

Lemma ENCODING_FIXES_patterns (e : text * text) :
  e ∈ ENCODING_FIXES -> e.1 <> [].
Proof.
  intros [i Hi]%list_elem_of_lookup. destruct e as [p r].
  by apply (ENCODING_FIXES_nonempty i p r).
Qed.

(** A character that no pattern and no replacement of the table holds
    is neither produced nor consumed by the pass. *)
Lemma substitute_all_keeps_char (c : Z) (table : dict) (s : text) :
  forallb (fun e => nonempty e.1 && (count e.1 [c] =? 0)%nat
                    && (count e.2 [c] =? 0)%nat) table = true ->
  count (substitute_all table s).1 [c] = count s [c].
Proof.
  revert s. induction table as [|[p r] table IH]; intros s H; [done|].
  cbn [forallb fst snd] in H.
  apply andb_true_iff in H as [H Hrest].
  apply andb_true_iff in H as [H Hr]. apply andb_true_iff in H as [Hp Hpc].
  apply Nat.eqb_eq in Hr, Hpc. apply nonempty_true in Hp.
  rewrite substitute_all_cons. cbn [fst]. rewrite (IH _ Hrest).
  pose proof (replace_count_char c s p r Hp) as Hbal.
  rewrite Hr, Hpc in Hbal. lia.
Qed.

(** ** The loop, entry by entry *)

Lemma fix_messages_app (t1 t2 : dict) (s : text) :
  fix_messages (t1 ++ t2) s
  = fix_messages t1 s ++ fix_messages t2 (substitute_all t1 s).1.
Proof.
  revert s. induction t1 as [|[p r] t1 IH]; intros s; [done|].
  change (((p, r) :: t1) ++ t2) with ((p, r) :: (t1 ++ t2)).
  cbn [fix_messages]. rewrite IH, substitute_all_cons. cbn [fst].
  by rewrite <- app_assoc.
Qed.

(** The loop over the first [i] entries stops with the text before the
    entry at [i]. *)
Lemma apply_fixes_take (table : dict) (i : nat) (s : text) (total : nat)
    (w : world) :
  apply_fixes (take i table) s total w
  = (Return (text_before table i s,
             (total + (substitute_all (take i table) s).2)%nat),
     log w (fix_messages (take i table) s)).
Proof. exact (apply_fixes_spec (take i table) s total w). Qed.

(** The loop over a table is the loop over its first entries, continued
    by the loop over the others. *)
Lemma apply_fixes_app (t1 t2 : dict) (s : text) (total : nat) (w : world) :
  apply_fixes (t1 ++ t2) s total w
  = apply_fixes t2 (substitute_all t1 s).1
      (total + (substitute_all t1 s).2)%nat (log w (fix_messages t1 s)).
Proof.
  rewrite !apply_fixes_spec, substitute_all_app, fix_messages_app.
  unfold log. cbn [fst snd files dirs stdout].
  rewrite <- app_assoc. do 3 f_equal. lia.
Qed.

(** The lines the loop prints are the entries with a positive count,
    each with its count. *)
Lemma fix_messages_lines (table : dict) (s : text) :
  fix_messages table s
  = map fix_line
      (filter (fun l => (0 < l.2)%nat) (zip table (entry_counts table s))).
Proof.
  revert s. induction table as [|[p r] table IH]; intros s; [done|].
  cbn [fix_messages entry_counts zip_with]. rewrite filter_cons, IH.
  cbn [snd]. destruct (0 <? count s p)%nat eqn:Hpos.
  - apply Nat.ltb_lt in Hpos. by rewrite decide_True.
  - apply Nat.ltb_ge in Hpos. by rewrite decide_False by lia.
Qed.

Lemma fix_messages_from (table : dict) (s : text) (m : message) :
  m ∈ fix_messages table s ->
  exists i p r n,
    table !! i = Some (p, r) /\
    entry_counts table s !! i = Some (S n) /\
    m = MsgFix p r (S n).
Proof.
  rewrite fix_messages_lines. intros Hm.
  apply list_elem_of_fmap in Hm as ([[p r] n] & -> & Hl).
  apply list_elem_of_filter in Hl as [Hpos Hl]. cbn [snd] in Hpos.
  apply elem_of_lookup_zip_with in Hl as (i & e & k & Heq & He & Hk).
  injection Heq as <- <-.
  destruct n as [|n]; [lia|]. by exists i, p, r, n.
Qed.

(** The loop over the table of the script. *)
Lemma apply_fixes_table (s : text) (total : nat) (w : world) :
  apply_fixes ENCODING_FIXES s total w
  = (Return (fixed_text s, (total + fixed_count s)%nat),
     log w (fix_messages ENCODING_FIXES s)).
Proof. exact (apply_fixes_spec ENCODING_FIXES s total w). Qed.

Lemma apply_fixes_table_0 (s : text) (w : world) :
  apply_fixes ENCODING_FIXES s O w
  = (Return (fixed_text s, fixed_count s),
     log w (fix_messages ENCODING_FIXES s)).
Proof. exact (apply_fixes_table s O w). Qed.

(** The table holds every pattern once. *)
Lemma ENCODING_FIXES_keys : NoDup (map fst ENCODING_FIXES).
Proof.
  assert (bool_decide (NoDup (map fst ENCODING_FIXES)) = true) as H
    by (vm_compute; reflexivity).
  by apply bool_decide_eq_true in H.
Qed.

(** What a run returns: nothing, or the count of a text that needs a
    repair. *)
Lemma process_file_run_result os file_path dry_run w r w' :
  process_file_run os file_path dry_run w r w' ->
  r = (O, false) \/
  exists bs s,
    denied os (OpenRead file_path) = false /\
    files w !! file_path = Some bs /\
    decoded_text bs = Some s /\
    (0 < fixed_count s)%nat /\
    r = (fixed_count s, true).
Proof.
  destruct 1; try (by left); right; by exists bs, s.
Qed.

(** * The claims *)





(** C3 as stated fails: where the platform refuses the backup, the dry
    run reports three corrections and the live run on the same world
    returns [(0, False)]. *)
Lemma C3_dry_live_counterexample :
  denied read_only (Copy "site/a.php" (backup_path_of "site/a.php")) = true /\
  (process_file read_only "site/a.php" true example_world).1
    = Return (3%nat, true) /\
  (process_file read_only "site/a.php" false example_world).1
    = Return (O, false) /\
  (process_file read_only "site/a.php" true example_world).1
    <> (process_file read_only "site/a.php" false example_world).1.
Proof.
  assert ((process_file read_only "site/a.php" true example_world).1
          = Return (3%nat, true)) as Hdry by (vm_compute; reflexivity).
  assert ((process_file read_only "site/a.php" false example_world).1
          = Return (O, false)) as Hlive by (vm_compute; reflexivity).
  split; [reflexivity|]. split; [exact Hdry|]. split; [exact Hlive|].
  rewrite Hdry, Hlive. discriminate.
Qed.

(** C3, amended. A dry run leaves every file and every directory as it
    was.  It returns what a live run on the same world returns when the
    backup and the write of that run are not refused; when the two
    results differ, the platform refused one of them, the live run
    returned [(0, False)] and the dry run a positive count with
    [True]. *)
Theorem C3_dry_run_frame (os : platform) (file_path : string) (w : world) :
  files (process_file os file_path true w).2 = files w /\
  dirs (process_file os file_path true w).2 = dirs w /\
  (denied os (Copy file_path (backup_path_of file_path)) = false ->
   denied os (OpenWrite file_path) = false ->
   denied os (WriteData file_path) = false ->
   (process_file os file_path true w).1 = (process_file os file_path false w).1) /\
  ((process_file os file_path true w).1 <> (process_file os file_path false w).1 ->
   (denied os (Copy file_path (backup_path_of file_path)) = true \/
    denied os (OpenWrite file_path) = true \/
    denied os (WriteData file_path) = true) /\
   (process_file os file_path false w).1 = Return (O, false) /\
   exists n, (0 < n)%nat /\
     (process_file os file_path true w).1 = Return (n, true)).
Proof.
  assert (denied os (Copy file_path (backup_path_of file_path)) = false ->
          denied os (OpenWrite file_path) = false ->
          denied os (WriteData file_path) = false ->
          (process_file os file_path true w).1
          = (process_file os file_path false w).1) as Hsame.
  { intros Hc Ho Hw.
    destruct (denied os (OpenRead file_path)) eqn:Hd.
    { by rewrite !process_file_read_error by auto. }
    destruct (files w !! file_path) as [bs|] eqn:Hf.
    2: { by rewrite !process_file_read_error by auto. }
    destruct (decoded_text_total bs) as [s Hs].
    destruct (process_file_result os file_path true w bs s Hd Hf Hs)
      as (w1 & -> & _); [by left|].
    destruct (process_file_result os file_path false w bs s Hd Hf Hs)
      as (w2 & -> & _); [by right|].
    done. }
  split_and!.
  - destruct (process_file_runs os file_path true w) as (r & w' & -> & Hrun).
    by apply process_file_run_dry in Hrun.
  - destruct (process_file_runs os file_path true w) as (r & w' & -> & Hrun).
    by apply process_file_run_dirs in Hrun.
  - exact Hsame.
  - intros Hne. split.
    { destruct (denied os (Copy file_path (backup_path_of file_path))); [auto|].
      destruct (denied os (OpenWrite file_path)); [auto|].
      destruct (denied os (WriteData file_path)); [auto|].
      exfalso. by apply Hne, Hsame. }
    destruct (process_file_runs os file_path true w) as (r1 & w1 & Heq1 & Hrun1).
    destruct (process_file_runs os file_path false w) as (r2 & w2 & Heq2 & Hrun2).
    rewrite Heq1, Heq2 in *. cbn [fst] in *.
    apply process_file_run_result in Hrun1, Hrun2.
    destruct Hrun2 as [-> | (bs2 & s2 & _ & Hf2 & Hs2 & Hpos2 & ->)].
    + split; [done|].
      destruct Hrun1 as [-> | (bs1 & s1 & _ & _ & _ & Hpos1 & ->)]; [done|].
      by exists (fixed_count s1).
    + exfalso.
      destruct Hrun1 as [-> | (bs1 & s1 & _ & Hf1 & Hs1 & Hpos1 & ->)].
      * destruct (denied os (OpenRead file_path)) eqn:Hd.
        { rewrite process_file_read_error in Heq2 by auto. congruence. }
        pose proof (process_file_result os file_path true w bs2 s2 Hd Hf2 Hs2
                      ltac:(by left)) as (w3 & Heq3 & _).
        rewrite Heq1 in Heq3. injection Heq3 as Hz _. lia.
      * rewrite Hf1 in Hf2. injection Hf2 as <-.
        rewrite Hs1 in Hs2. injection Hs2 as <-. done.
Qed.

Lemma C3_dry_run_frame_witness :
  files (process_file posix "site/a.php" true example_world).2
    = files example_world /\
  (process_file posix "site/a.php" true example_world).1 = Return (3%nat, true) /\
  (process_file posix "site/a.php" false example_world).1 = Return (3%nat, true).
Proof.
  pose proof (C3_dry_run_frame posix "site/a.php" example_world)
    as (Hfiles & _ & Hsame & _).
  split; [exact Hfiles|].
  assert ((process_file posix "site/a.php" true example_world).1
          = Return (3%nat, true)) as Hdry by (vm_compute; reflexivity).
  split; [exact Hdry|].
  rewrite <- (Hsame eq_refl eq_refl eq_refl). exact Hdry.
Defined.

(** C4 as stated fails: the loop over the result of a first loop
    replaces once more, and so does the second live run on a file. *)
Lemma C4_idempotence_counterexample :
  let first := process_file posix "site/c.htm" false dash_world in
  let second := process_file posix "site/c.htm" false first.2 in
  decoded_text a_tilde_dash_bytes = Some A_TILDE_DASH_WRONG /\
  (apply_fixes ENCODING_FIXES A_TILDE_DASH_WRONG O dash_world).1
    = Return (O_UMLAUT_WRONG, 1%nat) /\
  (apply_fixes ENCODING_FIXES O_UMLAUT_WRONG O dash_world).1
    = Return ([0xD6], 1%nat) /\
  first.1 = Return (1%nat, true) /\
  second.1 = Return (1%nat, true) /\
  second.1 <> Return (O, false).
Proof.
  cbn zeta.
  split; [vm_compute; reflexivity|]. split; [vm_compute; reflexivity|].
  split; [vm_compute; reflexivity|]. split; [vm_compute; reflexivity|].
  split; [vm_compute; reflexivity|]. vm_compute. discriminate.
Qed.

(** The same on a file: the second live run reports one more
    replacement. *)
Example second_run_replaces_again :
  let first := process_file posix "site/c.htm" false dash_world in
  let second := process_file posix "site/c.htm" false first.2 in
  first.1 = Return (1%nat, true) /\
  second.1 = Return (1%nat, true) /\
  (files second.2 !! "site/c.htm"%string) ≫= utf8_decode = Some [0xD6].
Proof. vm_compute. repeat split; reflexivity. Qed.

(** C4, amended. After the loop no pattern of the table occurs in the
    text, except possibly the two that end in an en dash, which the
    en-dash entry can assemble after their turn.  A second loop over the
    result replaces nothing exactly when neither of the two occurs; it
    then prints nothing and returns the text as it is, and it changes
    the text whenever it replaces.  A file that holds the result is
    left alone by [process_file] when neither occurs, and a dry run over
    it returns [(0, False)] only then. *)
Theorem C4_second_pass (s : text) (w : world) :
  exists s1 n1 w1 s2 n2 w2,
    apply_fixes ENCODING_FIXES s O w = (Return (s1, n1), w1) /\
    apply_fixes ENCODING_FIXES s1 O w1 = (Return (s2, n2), w2) /\
    Forall (fun e => e.1 = O_UMLAUT_DOUBLE_WRONG \/ e.1 = O_UMLAUT_WRONG \/
                     contains s1 e.1 = false) ENCODING_FIXES /\
    (n2 = O <->
     contains s1 O_UMLAUT_DOUBLE_WRONG = false /\
     contains s1 O_UMLAUT_WRONG = false) /\
    (n2 = O <-> s2 = s1) /\
    (n2 = O -> w2 = w1) /\
    forall os file_path dry_run w' bs,
      denied os (OpenRead file_path) = false ->
      files w' !! file_path = Some bs ->
      decoded_text bs = Some s1 ->
      (n2 = O ->
       process_file os file_path dry_run w' = (Return (O, false), w')) /\
      ((process_file os file_path true w').1 = Return (O, false) -> n2 = O).
Proof.
  assert (Forall (fun e => e.1 = O_UMLAUT_DOUBLE_WRONG \/ e.1 = O_UMLAUT_WRONG \/
                   contains (fixed_text s) e.1 = false) ENCODING_FIXES) as Hgone.
  { pose proof (gone_after_sound ENCODING_FIXES s) as Habsent.
    eapply Forall_impl; [apply ENCODING_FIXES_gone|].
    intros e [H | [H | H]]; auto. right. right.
    apply (proj1 (Forall_forall _ _) Habsent). done. }
  exists (fixed_text s), (fixed_count s),
         (log w (fix_messages ENCODING_FIXES s)),
         (fixed_text (fixed_text s)), (fixed_count (fixed_text s)),
         (log (log w (fix_messages ENCODING_FIXES s))
              (fix_messages ENCODING_FIXES (fixed_text s))).
  split; [apply apply_fixes_table_0|].
  split; [apply apply_fixes_table_0|].
  split; [exact Hgone|]. split_and!.
  - split.
    + intros Hz. apply substitute_all_zero in Hz.
      rewrite Forall_forall in Hz.
      assert ((O_UMLAUT_DOUBLE_WRONG, [0xD6]) ∈ ENCODING_FIXES) as H1
        by (apply list_elem_of_In; vm_compute; tauto).
      assert ((O_UMLAUT_WRONG, [0xD6]) ∈ ENCODING_FIXES) as H2
        by (apply list_elem_of_In; vm_compute; tauto).
      split; apply count_zero_iff; try done; [apply (Hz _ H1) | apply (Hz _ H2)].
    + intros [H1 H2]. unfold fixed_count.
      rewrite substitute_all_absent; [done|].
      apply Forall_forall. intros e He.
      apply count_zero_iff; [by apply ENCODING_FIXES_patterns|].
      destruct (proj1 (Forall_forall _ _) Hgone e He) as [-> | [-> | H]]; done.
  - split; [apply fixed_count_zero|]. intros Heq.
    destruct (fixed_count (fixed_text s)) eqn:Hc; [done|].
    exfalso. apply (fixed_count_pos (fixed_text s)); [lia | done].
  - intros Hz. rewrite (fix_messages_zero _ _ Hz). apply log_nil.
  - intros os file_path dry_run w' bs Hd Hf Hs. split.
    + intros Hz.
      destruct (process_file_runs os file_path dry_run w') as (r & w'' & -> & Hrun).
      destruct Hrun;
        try match goal with
        | Hf0 : files w' !! file_path = Some ?b, Hs0 : decoded_text ?b = Some ?t,
          Hp : (0 < fixed_count ?t)%nat |- _ =>
            rewrite Hf in Hf0; injection Hf0 as <-;
            rewrite Hs in Hs0; injection Hs0 as <-;
            rewrite Hz in Hp; lia
        end.
      * match goal with H : _ \/ _ |- _ => destruct H; congruence end.
      * done.
    + intros Hres.
      destruct (process_file_result os file_path true w' bs _ Hd Hf Hs)
        as (w'' & Heq & _); [by left|].
      remember (fixed_count (fixed_text s)) as n2 eqn:Hn2. clear Hn2.
      rewrite Heq in Hres. cbn [fst] in Hres. by injection Hres as -> _.
Qed.

Lemma C4_second_pass_witness :
  exists s1 w1 s2,
    apply_fixes ENCODING_FIXES spaeter_text O example_world
      = (Return (s1, 3%nat), w1) /\
    contains s1 O_UMLAUT_DOUBLE_WRONG = false /\
    contains s1 O_UMLAUT_WRONG = false /\
    apply_fixes ENCODING_FIXES s1 O w1 = (Return (s2, O), w1) /\
    s2 = s1.
Proof.
  destruct (C4_second_pass spaeter_text example_world)
    as (s1 & n1 & w1 & s2 & n2 & w2 & H1 & H2 & _ & Hiff & Hsame & Hworld & _).
  assert ((apply_fixes ENCODING_FIXES spaeter_text O example_world).1
          = Return (SPAETER ++ [0x20] ++ SPAETER ++ [0x20] ++ SPAETER, 3%nat))
    as Hrun by (vm_compute; reflexivity).
  rewrite H1 in Hrun. cbn [fst] in Hrun. injection Hrun as -> ->.
  assert (contains (SPAETER ++ [0x20] ++ SPAETER ++ [0x20] ++ SPAETER)
            O_UMLAUT_DOUBLE_WRONG = false) as Hc1 by (vm_compute; reflexivity).
  assert (contains (SPAETER ++ [0x20] ++ SPAETER ++ [0x20] ++ SPAETER)
            O_UMLAUT_WRONG = false) as Hc2 by (vm_compute; reflexivity).
  assert (n2 = O) as -> by (apply Hiff; by split).
  exists (SPAETER ++ [0x20] ++ SPAETER ++ [0x20] ++ SPAETER), w1, s2.
  split; [exact H1|]. split; [exact Hc1|]. split; [exact Hc2|].
  rewrite <- (Hworld eq_refl) at 2. split; [exact H2|].
  by apply Hsame.
Defined.

(** C5. The display writes the broken arrow twice as a key, first for
    the left arrow and then for the right arrow; the dict keeps one
    entry, the last of the table, with the right arrow.  For every text
    the loop over the table is the loop over the first 39 entries
    followed by that entry: it replaces every occurrence of the broken
    arrow in the text it finds by U+2192, so none is left and each adds
    one right arrow; the occurrences of the input are among them, since
    no earlier entry touches one.  No entry of the table and no line the
    loop prints produces U+2190, whose number of occurrences the loop
    leaves as it was. *)
Theorem C5_right_arrow_shadows_left_arrow (s : text) (total : nat)
    (w : world) :
  ENCODING_FIXES_display !! 39%nat = Some (ARROW_WRONG, [LEFT_ARROW]) /\
  ENCODING_FIXES_display !! 40%nat = Some (ARROW_WRONG, [RIGHT_ARROW]) /\
  ARROW_WRONG = [0xE2; 0x2020; 0x2019] /\
  length ENCODING_FIXES = 40%nat /\
  ENCODING_FIXES !! 39%nat = Some (ARROW_WRONG, [RIGHT_ARROW]) /\
  dict_get ENCODING_FIXES ARROW_WRONG = Some [RIGHT_ARROW] /\
  Forall (fun e => count e.2 [LEFT_ARROW] = O) ENCODING_FIXES /\
  exists s39 n39 w39 s' n' w' ms,
    apply_fixes (take 39 ENCODING_FIXES) s total w = (Return (s39, n39), w39) /\
    apply_fixes ENCODING_FIXES s total w = (Return (s', n'), w') /\
    apply_fixes ENCODING_FIXES s total w
      = apply_fixes [(ARROW_WRONG, [RIGHT_ARROW])] s39 n39 w39 /\
    s' = replace s39 ARROW_WRONG [RIGHT_ARROW] /\
    n' = (n39 + count s39 ARROW_WRONG)%nat /\
    w' = (if (0 <? count s39 ARROW_WRONG)%nat
          then log w39 [MsgFix ARROW_WRONG [RIGHT_ARROW] (count s39 ARROW_WRONG)]
          else w39) /\
    contains s' ARROW_WRONG = false /\
    count s' [LEFT_ARROW] = count s [LEFT_ARROW] /\
    count s' [RIGHT_ARROW] = (count s [RIGHT_ARROW] + count s39 ARROW_WRONG)%nat /\
    (count s ARROW_WRONG <= count s39 ARROW_WRONG)%nat /\
    stdout w' = stdout w ++ ms /\
    Forall (fun m => exists p r n,
              m = MsgFix p r n /\ (p, r) ∈ ENCODING_FIXES /\
              (p = ARROW_WRONG -> r = [RIGHT_ARROW]) /\
              count r [LEFT_ARROW] = O) ms.
Proof.
  assert (ENCODING_FIXES !! 39%nat = Some (ARROW_WRONG, [RIGHT_ARROW])) as Hlast
    by (vm_compute; reflexivity).
  assert (length ENCODING_FIXES = 40%nat) as Hlen by (vm_compute; reflexivity).
  assert (ENCODING_FIXES
          = take 39 ENCODING_FIXES ++ [(ARROW_WRONG, [RIGHT_ARROW])]) as Hsplit
    by (vm_compute; reflexivity).
  assert (Forall (fun e => count e.2 [LEFT_ARROW] = O) ENCODING_FIXES) as Hleft.
  { assert (forallb (fun e => (count e.2 [LEFT_ARROW] =? 0)%nat) ENCODING_FIXES
            = true) as Hall by (vm_compute; reflexivity).
    rewrite forallb_forall in Hall. apply Forall_forall.
    intros e He%list_elem_of_In. by apply Nat.eqb_eq, Hall. }
  assert (Forall (fun e => e.1 = ARROW_WRONG -> e.2 = [RIGHT_ARROW])
            ENCODING_FIXES) as Hkey.
  { assert (forallb (fun e : text * text =>
              bool_decide (e.1 = ARROW_WRONG -> e.2 = [RIGHT_ARROW]))
              ENCODING_FIXES = true) as Hall by (vm_compute; reflexivity).
    rewrite forallb_forall in Hall. apply Forall_forall.
    intros e He%list_elem_of_In. specialize (Hall e He).
    by apply bool_decide_eq_true in Hall. }
  split; [vm_compute; reflexivity|]. split; [vm_compute; reflexivity|].
  split; [reflexivity|]. split; [exact Hlen|]. split; [exact Hlast|].
  split; [vm_compute; reflexivity|]. split; [exact Hleft|].
  set (s39 := text_before ENCODING_FIXES 39 s).
  set (n39 := (total + (substitute_all (take 39 ENCODING_FIXES) s).2)%nat).
  set (w39 := log w (fix_messages (take 39 ENCODING_FIXES) s)).
  assert (apply_fixes ENCODING_FIXES s total w
          = apply_fixes [(ARROW_WRONG, [RIGHT_ARROW])] s39 n39 w39) as Hloop.
  { rewrite Hsplit at 1. apply apply_fixes_app. }
  assert (apply_fixes [(ARROW_WRONG, [RIGHT_ARROW])] s39 n39 w39
          = (Return (replace s39 ARROW_WRONG [RIGHT_ARROW],
                     (n39 + count s39 ARROW_WRONG)%nat),
             if (0 <? count s39 ARROW_WRONG)%nat
             then log w39 [MsgFix ARROW_WRONG [RIGHT_ARROW] (count s39 ARROW_WRONG)]
             else w39)) as Hstep.
  { cbn [apply_fixes]. destruct (0 <? count s39 ARROW_WRONG)%nat eqn:Hpos; [done|].
    apply Nat.ltb_ge in Hpos.
    assert (count s39 ARROW_WRONG = O) as Hz by lia.
    by rewrite (replace_id _ _ _ Hz), Hz, Nat.add_0_r. }
  exists s39, n39, w39, (replace s39 ARROW_WRONG [RIGHT_ARROW]),
         (n39 + count s39 ARROW_WRONG)%nat,
         (if (0 <? count s39 ARROW_WRONG)%nat
          then log w39 [MsgFix ARROW_WRONG [RIGHT_ARROW] (count s39 ARROW_WRONG)]
          else w39),
         (fix_messages ENCODING_FIXES s).
  split; [apply apply_fixes_take|].
  split; [by rewrite Hloop|].
  split; [exact Hloop|].
  split; [reflexivity|]. split; [reflexivity|]. split; [reflexivity|].
  assert (count s39 [RIGHT_ARROW] = count s [RIGHT_ARROW]) as Hbefore.
  { apply substitute_all_keeps_char. vm_compute. reflexivity. }
  assert (count s39 [LEFT_ARROW] = count s [LEFT_ARROW]) as Hbefore'.
  { apply substitute_all_keeps_char. vm_compute. reflexivity. }
  split_and!.
  - by apply replace_removes.
  - pose proof (replace_count_char LEFT_ARROW s39 ARROW_WRONG [RIGHT_ARROW]
                  ltac:(done)) as Hbal.
    assert (count ARROW_WRONG [LEFT_ARROW] = O) as Hp by (vm_compute; reflexivity).
    assert (count [RIGHT_ARROW] [LEFT_ARROW] = O) as Hr
      by (vm_compute; reflexivity).
    rewrite Hp, Hr in Hbal. lia.
  - pose proof (replace_count_char RIGHT_ARROW s39 ARROW_WRONG [RIGHT_ARROW]
                  ltac:(done)) as Hbal.
    assert (count ARROW_WRONG [RIGHT_ARROW] = O) as Hp by (vm_compute; reflexivity).
    assert (count [RIGHT_ARROW] [RIGHT_ARROW] = 1%nat) as Hr
      by (vm_compute; reflexivity).
    rewrite Hp, Hr in Hbal. lia.
  - apply substitute_all_keeps_occurrences. vm_compute. reflexivity.
  - pose proof (apply_fixes_spec ENCODING_FIXES s total w) as Hspec.
    rewrite Hloop, Hstep in Hspec. apply (f_equal snd) in Hspec.
    cbn [snd] in Hspec. by rewrite Hspec.
  - apply Forall_forall. intros m Hm.
    apply fix_messages_from in Hm as (i & p & r & n & Hi & _ & ->).
    assert ((p, r) ∈ ENCODING_FIXES) as Hin
      by (apply list_elem_of_lookup; by exists i).
    exists p, r, (S n). split_and!; [done | done | |].
    + apply (proj1 (Forall_forall _ _) Hkey (p, r) Hin).
    + apply (proj1 (Forall_forall _ _) Hleft (p, r) Hin).
Qed.

(** C6 as stated fails: on the garbled word the loop prints one line,
    for the entry of "Ã¤" (l.32), and returns the word corrected; the
    entry for the word (l.40) finds nothing. *)
Lemma C6_word_priority_counterexample :
  ENCODING_FIXES !! 15%nat = Some (SPAETER_WRONG, SPAETER) /\
  ENCODING_FIXES !! 9%nat = Some ([0xC3; 0xA4], [0xE4]) /\
  (apply_fixes ENCODING_FIXES SPAETER_WRONG O example_world).1
    = Return (SPAETER, 1%nat) /\
  stdout (apply_fixes ENCODING_FIXES SPAETER_WRONG O example_world).2
    = [MsgFix [0xC3; 0xA4] [0xE4] 1] /\
  stdout (process_file posix "site/a.php" true example_world).2
    = [MsgFix [0xC3; 0xA4] [0xE4] 3; MsgWouldRepair 3] /\
  ~ corrects ENCODING_FIXES 15 SPAETER_WRONG /\
  corrects ENCODING_FIXES 9 SPAETER_WRONG.
Proof.
  split; [vm_compute; reflexivity|]. split; [vm_compute; reflexivity|].
  split; [vm_compute; reflexivity|]. split; [vm_compute; reflexivity|].
  split; [vm_compute; reflexivity|]. split.
  - intros [n Hn]. vm_compute in Hn. discriminate.
  - exists O. vm_compute. reflexivity.
Qed.

(** C6, amended. The whole-word entries are the entries 15 to 32 of the
    table, behind the character-level entries.  Whatever the text, when
    the loop reaches a word entry its pattern no longer occurs: the
    entry counts 0, the loop leaves it with the text, the total and the
    console it came with, and no line of the whole loop names its
    pattern.  The character-level entries have done the correction, with
    the result the word entry names: the loop over the pattern of a word
    entry returns its replacement, with a positive count. *)
Theorem C6_word_entries_find_nothing (s : text) (i : nat) (total : nat)
    (w : world) :
  (15 <= i < 33)%nat ->
  WORD_FIXES = take 18 (drop 15 ENCODING_FIXES) /\
  entry_counts ENCODING_FIXES s !! i = Some O /\
  ~ corrects ENCODING_FIXES i s /\
  (exists e si ni wi ms,
     ENCODING_FIXES !! i = Some e /\ e ∈ WORD_FIXES /\
     apply_fixes (take i ENCODING_FIXES) s total w = (Return (si, ni), wi) /\
     contains si e.1 = false /\
     count si e.1 = O /\
     apply_fixes (take (S i) ENCODING_FIXES) s total w = (Return (si, ni), wi) /\
     stdout (apply_fixes ENCODING_FIXES s total w).2 = stdout w ++ ms /\
     Forall (fun m => forall r n, m <> MsgFix e.1 r n) ms) /\
  Forall (fun e => exists n, (0 < n)%nat /\
            (apply_fixes ENCODING_FIXES e.1 total w).1
            = Return (e.2, (total + n)%nat)) WORD_FIXES.
Proof.
  intros Hi.
  assert (WORD_FIXES = take 18 (drop 15 ENCODING_FIXES)) as Hwords
    by (vm_compute; reflexivity).
  assert (length ENCODING_FIXES = 40%nat) as Hlen by (vm_compute; reflexivity).
  assert (entry_counts ENCODING_FIXES s !! i = Some O) as Hzero.
  { pose proof (idle_entries_sound ENCODING_FIXES [] s ltac:(constructor))
      as Hidle.
    assert (idle_entries [] ENCODING_FIXES
            = replicate 15 false ++ replicate 18 true ++ replicate 7 false)
      as Heq by (vm_compute; reflexivity).
    rewrite Heq in Hidle.
    assert ((replicate 15 false ++ replicate 18 true ++ replicate 7 false)
              !! i = Some true) as Htrue.
    { rewrite lookup_app_r by (rewrite length_replicate; lia).
      rewrite lookup_app_l by (rewrite !length_replicate; lia).
      apply lookup_replicate_2. rewrite length_replicate. lia. }
    destruct (Forall2_lookup_l _ _ _ _ _ Hidle Htrue) as (n & Hn & Hcond).
    rewrite Hn. f_equal. by apply Hcond. }
  split; [exact Hwords|]. split; [exact Hzero|].
  split; [intros [n Hn]; congruence|]. split.
  - destruct (lookup_lt_is_Some_2 ENCODING_FIXES i ltac:(lia)) as [[p r] He].
    assert (count (text_before ENCODING_FIXES i s) p = O) as Hcount.
    { pose proof (entry_counts_lookup ENCODING_FIXES s i p r He) as Hc.
      rewrite Hzero in Hc. by injection Hc. }
    pose proof (ENCODING_FIXES_nonempty i p r He) as Hp.
    exists (p, r), (text_before ENCODING_FIXES i s),
           (total + (substitute_all (take i ENCODING_FIXES) s).2)%nat,
           (log w (fix_messages (take i ENCODING_FIXES) s)),
           (fix_messages ENCODING_FIXES s).
    cbn [fst snd]. split_and!.
    + exact He.
    + rewrite Hwords. apply list_elem_of_lookup. exists (i - 15)%nat.
      rewrite lookup_take_lt by lia. rewrite lookup_drop.
      by replace (15 + (i - 15))%nat with i by lia.
    + apply apply_fixes_take.
    + by apply count_zero_iff.
    + exact Hcount.
    + rewrite (take_S_r _ _ _ He), apply_fixes_app.
      fold (text_before ENCODING_FIXES i s).
      cbn [apply_fixes]. by rewrite Hcount.
    + by rewrite apply_fixes_spec.
    + apply Forall_forall. intros m Hm r' n' ->.
      apply fix_messages_from in Hm as (j & p' & r'' & n & Hj & Hn & Heq).
      injection Heq as <- <- ->.
      assert (j = i) as ->.
      { apply (NoDup_lookup (map fst ENCODING_FIXES) j i p).
        - apply ENCODING_FIXES_keys.
        - by rewrite list_lookup_fmap, Hj.
        - by rewrite list_lookup_fmap, He. }
      congruence.
  - assert (forallb (fun e => bool_decide (fixed_text e.1 = e.2)
                              && (0 <? fixed_count e.1)%nat) WORD_FIXES
            = true) as Hall by (vm_compute; reflexivity).
    rewrite forallb_forall in Hall. apply Forall_forall.
    intros e He%list_elem_of_In. specialize (Hall e He).
    apply andb_true_iff in Hall as [Heq%bool_decide_eq_true Hpos%Nat.ltb_lt].
    exists (fixed_count e.1). split; [exact Hpos|].
    rewrite apply_fixes_spec. cbn [fst]. fold (fixed_text e.1).
    fold (fixed_count e.1). by rewrite Heq.
Qed.

Lemma C6_word_entries_find_nothing_witness :
  (15 <= 15 < 33)%nat /\
  ENCODING_FIXES !! 15%nat = Some (SPAETER_WRONG, SPAETER) /\
  exists si ni wi,
    apply_fixes (take 15 ENCODING_FIXES) SPAETER_WRONG O example_world
      = (Return (si, ni), wi) /\
    contains si SPAETER_WRONG = false /\
    apply_fixes (take 16 ENCODING_FIXES) SPAETER_WRONG O example_world
      = (Return (si, ni), wi).
Proof.
  assert (15 <= 15 < 33)%nat as Hi by lia.
  assert (ENCODING_FIXES !! 15%nat = Some (SPAETER_WRONG, SPAETER)) as H15
    by (vm_compute; reflexivity).
  split; [exact Hi|]. split; [exact H15|].
  destruct (C6_word_entries_find_nothing SPAETER_WRONG 15 O example_world Hi)
    as (_ & _ & _ & (e & si & ni & wi & ms & He & _ & H1 & Hc & _ & H2 & _) & _).
  rewrite H15 in He. injection He as <-.
  exists si, ni, wi. split; [exact H1|]. split; [exact Hc | exact H2].
Defined.

(** C7. The decoding loop tries UTF-8, Windows-1252, ISO-8859-1 and
    CP1252 in this order and keeps the text of the first codec that
    accepts the bytes; every codec before it raised.  Bytes that are not
    UTF-8 are decoded by one of the next two, and a (dry) run over them
    prints the corrections only, no failure. *)
Theorem C7_first_decodable_encoding (os : platform) (file_path : string)
    (w : world) (bs : list byte) :
  denied os (OpenRead file_path) = false ->
  files w !! file_path = Some bs ->
  ENCODINGS = [UTF_8; WINDOWS_1252; ISO_8859_1; CP1252] /\
  exists s enc before after,
    ENCODINGS = before ++ enc :: after /\
    Forall (fun e => decode e bs = None) before /\
    decode enc bs = Some s /\
    try_encodings os file_path ENCODINGS w
      = (Return (Some (universal_newlines s), Some enc), w) /\
    (decode UTF_8 bs = None ->
     (enc = WINDOWS_1252 \/ enc = ISO_8859_1) /\
     stdout (process_file os file_path true w).2
     = stdout w ++ fix_messages ENCODING_FIXES (universal_newlines s)
       ++ (if bool_decide (0 < fixed_count (universal_newlines s))%nat
           then [MsgWouldRepair (fixed_count (universal_newlines s))] else [])).
Proof.
  intros Hd Hf. split; [done|].
  destruct (first_decodable_latin1 bs) as (s & enc & Hfirst).
  destruct (first_decodable_spec _ _ _ _ Hfirst)
    as (before & after & Hsplit & Hbefore & Hdec).
  exists s, enc, before, after. split_and!; try done.
  - rewrite try_encodings_spec. cbv iota. by rewrite Hd, Hf, Hfirst.
  - intros Hutf. split.
    + unfold ENCODINGS in Hfirst. cbn [first_decodable] in Hfirst.
      rewrite Hutf in Hfirst.
      destruct (decode WINDOWS_1252 bs);
        injection Hfirst as <- <-; auto.
    + apply (process_file_dry_stdout os file_path w bs); try done.
      unfold decoded_text. by rewrite Hfirst.
Qed.

Lemma C7_first_decodable_encoding_witness :
  denied posix (OpenRead "site/b.html") = false /\
  files legacy_world !! "site/b.html"%string = Some cp1252_bytes /\
  decode UTF_8 cp1252_bytes = None /\
  exists s enc,
    decode enc cp1252_bytes = Some s /\
    try_encodings posix "site/b.html" ENCODINGS legacy_world
      = (Return (Some (universal_newlines s), Some enc), legacy_world).
Proof.
  assert (denied posix (OpenRead "site/b.html") = false) as Hd by reflexivity.
  assert (files legacy_world !! "site/b.html"%string = Some cp1252_bytes) as Hf
    by (vm_compute; reflexivity).
  split; [exact Hd|]. split; [exact Hf|]. split; [vm_compute; reflexivity|].
  destruct (C7_first_decodable_encoding posix "site/b.html" legacy_world
              cp1252_bytes Hd Hf)
    as (_ & s & enc & before & after & _ & _ & Hdec & Hloop & _).
  exists s, enc. split; [exact Hdec | exact Hloop].
Defined.

(** C8. A live run that reports a change has written the file, and the
    bytes in the file are the UTF-8 encoding of the corrected text (with
    the line ends of the platform): they decode as UTF-8 to that text,
    whichever encoding the input was read with. *)
Theorem C8_rewritten_as_utf8 (os : platform) (file_path : string) (w : world)
    (n : nat) :
  (process_file os file_path false w).1 = Return (n, true) ->
  exists bs s0 enc bs',
    files w !! file_path = Some bs /\
    first_decodable ENCODINGS bs = Some (s0, enc) /\
    let written :=
      write_newlines (linesep os) (fixed_text (universal_newlines s0)) in
    files (process_file os file_path false w).2 !! file_path = Some bs' /\
    utf8_encode written = Some bs' /\
    utf8_decode bs' = Some written.
Proof.
  intros Hres.
  destruct (process_file_runs os file_path false w) as (r & w' & Heq & Hrun).
  rewrite Heq in *. cbn [fst snd] in *. injection Hres as ->.
  inversion Hrun; subst; try done.
  match goal with H : decoded_text _ = Some _ |- _ =>
    unfold decoded_text in H;
    apply fmap_Some in H as ([s0 enc] & Hfirst & ->) end.
  exists bs, s0, enc, bs'. cbn [fst]. split_and!; try done.
  - unfold log, set_file. cbn [files]. apply lookup_insert_eq.
  - by apply utf8_decode_encode.
Qed.

Lemma C8_rewritten_as_utf8_witness :
  (process_file posix "site/b.html" false legacy_world).1 = Return (1%nat, true) /\
  first_decodable ENCODINGS cp1252_bytes = Some ([0xC3; 0xA4; 0xE9], WINDOWS_1252) /\
  exists bs',
    files (process_file posix "site/b.html" false legacy_world).2
      !! "site/b.html"%string = Some bs' /\
    utf8_decode bs' = Some [0xE4; 0xE9].
Proof.
  assert ((process_file posix "site/b.html" false legacy_world).1
          = Return (1%nat, true)) as Hres by (vm_compute; reflexivity).
  assert (first_decodable ENCODINGS cp1252_bytes
          = Some ([0xC3; 0xA4; 0xE9], WINDOWS_1252)) as Hfirst
    by (vm_compute; reflexivity).
  split; [exact Hres|]. split; [exact Hfirst|].
  destruct (C8_rewritten_as_utf8 posix "site/b.html" legacy_world 1 Hres)
    as (bs & s0 & enc & bs' & Hf & Hfirst' & Hfile & _ & Hdec).
  exists bs'. split; [exact Hfile|].
  assert (bs = cp1252_bytes) as ->.
  { assert (files legacy_world !! "site/b.html"%string = Some cp1252_bytes) as Hf'
      by (vm_compute; reflexivity).
    congruence. }
  rewrite Hfirst in Hfirst'. injection Hfirst' as <- <-.
  rewrite Hdec. vm_compute. reflexivity.
Defined.



(** C10. Latin-1 decodes every byte string, so the decoding loop never
    runs out of encodings: it stops at the third encoding at the latest,
    [content] is never [None], and no call of [process_file] prints the
    unknown-encoding failure. *)
Theorem C10_unknown_encoding_unreachable (os : platform) (file_path : string)
    (dry_run : bool) (w : world) (bs : list byte) :
  decode ISO_8859_1 bs = Some (map byte_val bs) /\
  (exists s enc,
     first_decodable ENCODINGS bs = Some (s, enc) /\ enc <> CP1252) /\
  (try_encodings os file_path ENCODINGS w).1 <> Return (None, None) /\
  exists ms,
    stdout (process_file os file_path dry_run w).2 = stdout w ++ ms /\
    MsgUnknownEncoding ∉ ms.
Proof.
  split_and!.
  - done.
  - unfold ENCODINGS. cbn [first_decodable].
    destruct (decode UTF_8 bs); [by eexists _, _|].
    destruct (decode WINDOWS_1252 bs); [by eexists _, _|].
    cbn [decode latin1_decode]. by eexists _, _.
  - destruct (try_encodings_cases os file_path w)
      as [[_ ->] | (b & s & enc & _ & _ & _ & ->)]; done.
  - destruct (process_file_runs os file_path dry_run w) as (r & w' & -> & Hrun).
    by apply process_file_run_stdout in Hrun.
Qed.

(** * Further properties of the code *)

(** X1. A file whose text holds no pattern of the table is left alone:
    in a live run as in a dry run, and whatever the platform refuses
    behind the read, [process_file] returns [(0, False)] and the world is
    what it was: no backup, no write, no line printed. *)
Theorem X1_clean_file_is_untouched (os : platform) (file_path : string)
    (dry_run : bool) (w : world) (bs : list byte) (s : text) :
  denied os (OpenRead file_path) = false ->
  files w !! file_path = Some bs ->
  decoded_text bs = Some s ->
  Forall (fun e => contains s e.1 = false) ENCODING_FIXES ->
  process_file os file_path dry_run w = (Return (O, false), w).
Proof.
  intros Hd Hf Hs Hclean.
  assert (fixed_count s = O) as Hz.
  { unfold fixed_count. rewrite substitute_all_absent; [done|].
    apply Forall_forall. intros e He.
    apply count_zero_iff; [by apply ENCODING_FIXES_patterns|].
    by apply (proj1 (Forall_forall _ _) Hclean). }
  destruct (process_file_runs os file_path dry_run w) as (r & w' & -> & Hrun).
  destruct Hrun;
    try match goal with
    | Hf0 : files w !! file_path = Some ?b, Hs0 : decoded_text ?b = Some ?t,
      Hp : (0 < fixed_count ?t)%nat |- _ =>
        rewrite Hf in Hf0; injection Hf0 as <-;
        rewrite Hs in Hs0; injection Hs0 as <-;
        rewrite Hz in Hp; lia
    end.
  - match goal with H : _ \/ _ |- _ => destruct H; congruence end.
  - done.
Qed.

Lemma X1_clean_file_is_untouched_witness :
  denied read_only (OpenRead "site/d.css") = false /\
  files clean_world !! "site/d.css"%string = Some clean_bytes /\
  decoded_text clean_bytes = Some [0x61; 0x7B; 0x7D] /\
  process_file read_only "site/d.css" false clean_world
    = (Return (O, false), clean_world).
Proof.
  assert (denied read_only (OpenRead "site/d.css") = false) as Hd by reflexivity.
  assert (files clean_world !! "site/d.css"%string = Some clean_bytes) as Hf
    by (vm_compute; reflexivity).
  assert (decoded_text clean_bytes = Some [0x61; 0x7B; 0x7D]) as Hs
    by (vm_compute; reflexivity).
  split; [exact Hd|]. split; [exact Hf|]. split; [exact Hs|].
  apply (X1_clean_file_is_untouched read_only "site/d.css" false clean_world
           clean_bytes _ Hd Hf Hs).
  apply Forall_forall. intros e He%list_elem_of_In.
  assert (forallb (fun e => negb (contains [0x61; 0x7B; 0x7D] e.1))
            ENCODING_FIXES = true) as Hall by (vm_compute; reflexivity).
  rewrite forallb_forall in Hall. by apply negb_true_iff, Hall.
Defined.

(** X2. The test [content != original_content] agrees with
    [total_replacements > 0]: every entry of the table replaces its
    pattern by a shorter text, so the text after the pass is shorter than
    the text before it by at least the number of replacements, and it is
    the same text exactly when nothing was replaced.  The [return 0,
    False] behind the test never discards a count. *)
Theorem X2_changed_iff_replaced (s : text) :
  (length (fixed_text s) + fixed_count s <= length s)%nat /\
  (fixed_text s = s <-> fixed_count s = O) /\
  (fixed_text s <> s <-> (0 < fixed_count s)%nat).
Proof.
  assert (forallb (fun e => (length e.2 <? length e.1)%nat) ENCODING_FIXES = true)
    as Hall by (vm_compute; reflexivity).
  pose proof (substitute_all_shrinks ENCODING_FIXES s Hall) as Hlen.
  fold (fixed_text s) in Hlen. fold (fixed_count s) in Hlen.
  split; [exact Hlen|]. split.
  - split; [|apply fixed_count_zero]. intros Heq. rewrite Heq in Hlen. lia.
  - split; [|apply fixed_count_pos]. intros Hne.
    destruct (fixed_count s) eqn:Hc; [|lia].
    exfalso. apply Hne. by apply fixed_count_zero.
Qed.


(** X4. The lines the substitution loop prints account for its result:
    they are exactly the entries with a positive count, in table order,
    each with its count, so every entry that finds something has its
    line and every line belongs to an entry that found something; the
    total the loop returns grows by the sum of the counts printed. *)
Theorem X4_printed_counts_add_up (items : dict) (content : text)
    (total : nat) (w : world) :
  exists lines : list (text * text * nat),
    apply_fixes items content total w
    = (Return ((substitute_all items content).1,
               (total + sum_list (map snd lines))%nat),
       log w (map fix_line lines)) /\
    lines = filter (fun l => (0 < l.2)%nat)
              (zip items (entry_counts items content)) /\
    Forall (fun l => (0 < l.2)%nat) lines /\
    sublist (map fst lines) items /\
    (forall i e n,
       items !! i = Some e ->
       entry_counts items content !! i = Some (S n) ->
       (e, S n) ∈ lines) /\
    (forall l, l ∈ lines ->
       exists i, items !! i = Some l.1 /\
                 entry_counts items content !! i = Some l.2).
Proof.
  revert content total w.
  induction items as [|[p x] items IH]; intros content total w.
  - exists []. cbn [apply_fixes map sum_list sum_list_with].
    rewrite log_nil, Nat.add_0_r. split_and!; try done.
    intros l Hl. by apply not_elem_of_nil in Hl.
  - cbn [apply_fixes]. rewrite substitute_all_cons. cbn [fst].
    cbn [entry_counts zip_with]. rewrite filter_cons. cbn [snd].
    destruct (0 <? count content p)%nat eqn:Hpos.
    + apply Nat.ltb_lt in Hpos. rewrite decide_True by done.
      unfold mbind, IO_bind, print.
      fold (log w [MsgFix p x (count content p)]).
      destruct (IH (replace content p x) (total + count content p)%nat
                  (log w [MsgFix p x (count content p)]))
        as (lines & -> & Heq & Hall & Hsub & Hin & Hfrom).
      exists ((p, x, count content p) :: lines).
      split_and!.
      * rewrite log_log.
        change (sum_list (map snd ((p, x, count content p) :: lines)))
          with (count content p + sum_list (map snd lines))%nat.
        by rewrite Nat.add_assoc.
      * by rewrite <- Heq.
      * by constructor.
      * cbn [map fst]. by apply sublist_skip.
      * intros [|i] e n He Hn; cbn in He, Hn.
        -- injection He as <-. injection Hn as <-.
           rewrite list_elem_of_In. left. f_equal.
        -- right. by apply (Hin i).
      * intros l [-> | Hl]%elem_of_cons.
        -- by exists O.
        -- destruct (Hfrom l Hl) as (i & H1 & H2). by exists (S i).
    + apply Nat.ltb_ge in Hpos. rewrite decide_False by lia.
      assert (count content p = O) as Hz by lia.
      rewrite (replace_id _ _ _ Hz).
      destruct (IH content total w) as (lines & -> & Heq & Hall & Hsub & Hin & Hfrom).
      exists lines. split_and!; try done.
      * by apply sublist_cons.
      * intros [|i] e n He Hn; cbn in He, Hn.
        -- congruence.
        -- by apply (Hin i).
      * intros l Hl. destruct (Hfrom l Hl) as (i & H1 & H2). by exists (S i).
Qed.

(** ** Line ends and the next run *)

Lemma universal_newlines_no_CR (s : text) :
  contains (universal_newlines s) [CR] = false.
Proof. unfold universal_newlines. by apply replace_removes. Qed.

Lemma substitute_all_keeps_absent (q : text) (table : dict) (s : text) :
  forallb (fun e => nonempty e.1 && nonempty e.2 && disjoint e.2 q) table
    = true ->
  contains s q = false -> contains (substitute_all table s).1 q = false.
Proof.
  revert s. induction table as [|[p x] table IH]; intros s H Hs; [done|].
  cbn [forallb fst snd] in H. apply andb_true_iff in H as [H Hrest].
  apply andb_true_iff in H as [H Hd]. apply andb_true_iff in H as [Hp Hx].
  rewrite substitute_all_cons. cbn [fst]. apply IH; [done|].
  apply replace_keeps_absent; auto using nonempty_true.
Qed.

Lemma no_CR_cons (c : Z) (t : text) :
  contains (c :: t) [CR] = false -> c <> CR /\ contains t [CR] = false.
Proof.
  intros [H1 H2]%contains_cons_false. split; [|done].
  intros ->. by cbv in H1.
Qed.

Lemma universal_newlines_id (t : text) :
  contains t [CR] = false -> universal_newlines t = t.
Proof.
  intros H. unfold universal_newlines.
  assert (count t [CR; LF] = O) as H1.
  { apply count_zero_iff; [done|].
    destruct (contains t [CR; LF]) eqn:Hc; [|done].
    by rewrite (contains_trans t [CR; LF] [CR] eq_refl Hc) in H. }
  rewrite (replace_id _ _ _ H1). apply replace_id.
  by apply count_zero_iff.
Qed.

Lemma crlf_round_trip (t : text) :
  contains t [CR] = false ->
  replace (replace t [LF] [CR; LF]) [CR; LF] [LF] = t.
Proof.
  induction t as [|c t IH]; intros H; [done|].
  apply no_CR_cons in H as [Hc Ht].
  destruct (decide (c = LF)) as [-> | Hlf].
  - change (LF :: t) with ([LF] ++ t). rewrite replace_match by done.
    rewrite replace_match by done. by rewrite (IH Ht).
  - rewrite (replace_skip c t [LF]).
    + rewrite replace_skip; [by rewrite (IH Ht)|].
      destruct (startswith (c :: replace t [LF] [CR; LF]) [CR; LF]) eqn:E;
        [|done].
      apply startswith_cons in E as [E _]. congruence.
    + destruct (startswith (c :: t) [LF]) eqn:E; [|done].
      apply startswith_cons in E as [E _]. congruence.
Qed.

(** Reading undoes what writing did to the line ends. *)
Lemma read_after_write_newlines (sep : line_separator) (t : text) :
  contains t [CR] = false ->
  universal_newlines (write_newlines sep t) = t.
Proof.
  intros H. unfold write_newlines. destruct sep; cbn [linesep_text].
  - rewrite decide_True by done. by apply universal_newlines_id.
  - rewrite decide_False by done. unfold universal_newlines.
    rewrite crlf_round_trip by done. apply replace_id.
    by apply count_zero_iff.
Qed.

Lemma fixed_text_no_CR (bs : list byte) (s : text) :
  decoded_text bs = Some s -> contains (fixed_text s) [CR] = false.
Proof.
  unfold decoded_text. intros ([s0 enc] & _ & ->)%fmap_Some.
  apply substitute_all_keeps_absent; [vm_compute; reflexivity|].
  apply universal_newlines_no_CR.
Qed.

(** X5. What a repair writes is what the next run reads: after a live
    run that repaired the file, the decoding loop accepts the new bytes
    with its first encoding, UTF-8, and the text the next
    [process_file] starts from is exactly the corrected text, on either
    kind of line separator. *)
Theorem X5_next_run_reads_the_repair (os : platform) (file_path : string)
    (w : world) (bs : list byte) (s : text) :
  denied os (OpenRead file_path) = false ->
  files w !! file_path = Some bs ->
  decoded_text bs = Some s ->
  (0 < fixed_count s)%nat ->
  denied os (Copy file_path (backup_path_of file_path)) = false ->
  denied os (OpenWrite file_path) = false ->
  denied os (WriteData file_path) = false ->
  exists bs',
    files (process_file os file_path false w).2 !! file_path = Some bs' /\
    first_decodable ENCODINGS bs'
      = Some (write_newlines (linesep os) (fixed_text s), UTF_8) /\
    decoded_text bs' = Some (fixed_text s).
Proof.
  intros Hd Hf Hs Hpos Hc Ho Hw.
  destruct (process_file_result os file_path false w bs s Hd Hf Hs)
    as (w' & -> & Hlive); [by right|].
  destruct (Hlive eq_refl Hpos) as (bs' & Henc & Hfiles).
  exists bs'. cbn [snd]. rewrite Hfiles.
  assert (first_decodable ENCODINGS bs'
          = Some (write_newlines (linesep os) (fixed_text s), UTF_8)) as Hfirst.
  { unfold ENCODINGS. cbn [first_decodable decode].
    by rewrite (utf8_decode_encode _ _ Henc). }
  split_and!.
  - apply lookup_insert_eq.
  - exact Hfirst.
  - unfold decoded_text. rewrite Hfirst. cbn [fmap option_fmap option_map fst].
    f_equal. apply read_after_write_newlines. by apply (fixed_text_no_CR bs).
Qed.

Lemma X5_next_run_reads_the_repair_witness :
  files example_world !! "site/a.php"%string = Some spaeter_bytes /\
  (0 < fixed_count spaeter_text)%nat /\
  exists bs',
    files (process_file posix "site/a.php" false example_world).2
      !! "site/a.php"%string = Some bs' /\
    decoded_text bs' = Some (SPAETER ++ [0x20] ++ SPAETER ++ [0x20] ++ SPAETER).
Proof.
  assert (files example_world !! "site/a.php"%string = Some spaeter_bytes) as Hf
    by (vm_compute; reflexivity).
  assert (decoded_text spaeter_bytes = Some spaeter_text) as Hs
    by (vm_compute; reflexivity).
  assert (0 < fixed_count spaeter_text)%nat as Hpos by (vm_compute; lia).
  split; [exact Hf|]. split; [exact Hpos|].
  destruct (X5_next_run_reads_the_repair posix "site/a.php" example_world
              spaeter_bytes _ eq_refl Hf Hs Hpos eq_refl eq_refl eq_refl)
    as (bs' & Hfile & _ & Hdec).
  exists bs'. split; [exact Hfile|]. rewrite Hdec. vm_compute. reflexivity.
Defined.

(** ** The walker: counters and frame *)

Lemma checked_app (a b : list message) : checked (a ++ b) = checked a ++ checked b.
Proof. apply omap_app. Qed.

Lemma checked_fix_messages (table : dict) (s : text) :
  checked (fix_messages table s) = [].
Proof.
  revert s. induction table as [|[p x] table IH]; intros s; [done|].
  cbn [fix_messages]. rewrite checked_app, IH.
  by destruct (0 <? count s p)%nat.
Qed.

Lemma process_file_run_checked os file_path dry_run w r w' :
  process_file_run os file_path dry_run w r w' ->
  exists ms, stdout w' = stdout w ++ ms /\ checked ms = [].
Proof.
  destruct 1; unfold log, set_file; cbn [stdout].
  2: { exists []. by rewrite app_nil_r. }
  all: eexists; (split; [reflexivity|]).
  all: rewrite ?checked_app, ?checked_fix_messages; done.
Qed.

Lemma process_file_run_flag os file_path dry_run w n changed w' :
  process_file_run os file_path dry_run w (n, changed) w' ->
  changed = bool_decide (0 < n)%nat.
Proof.
  inversion 1; subst.
  all: try (by rewrite bool_decide_eq_false_2 by lia).
  all: by rewrite bool_decide_eq_true_2 by done.
Qed.

Lemma process_file_run_frame os file_path dry_run w r w' :
  process_file_run os file_path dry_run w r w' ->
  forall q, q <> file_path -> q <> backup_path_of file_path ->
            files w' !! q = files w !! q.
Proof.
  intros Hrun q H1 H2.
  destruct (process_file_run_backup _ _ _ _ _ _ Hrun)
    as [Hsame | (bs & _ & _ & Hother)].
  - by rewrite Hsame.
  - by apply Hother.
Qed.

Lemma walk_accounts (os : platform) (args : arguments) (paths : list string)
    (a b c : nat) (w : world) :
  exists k j m w' ms,
    walk os args paths a b c w
      = (Return ((a + k)%nat, (b + j)%nat, (c + m)%nat), w') /\
    stdout w' = stdout w ++ ms /\
    length (checked ms) = k /\
    sublist (checked ms) paths /\
    Forall (fun p => suffix_lower os p ∈ WEB_EXTENSIONS) (checked ms) /\
    (j <= k)%nat /\ (j <= m)%nat /\
    dirs w' = dirs w /\
    (dry_run args = true -> files w' = files w) /\
    (forall q,
       (forall p, p ∈ checked ms -> q <> p /\ q <> backup_path_of p) ->
       files w' !! q = files w !! q).
Proof.
  revert a b c w. induction paths as [|p paths IH]; intros a b c w.
  - exists O, O, O, w, []. cbn [walk]. unfold mret, IO_ret.
    rewrite !Nat.add_0_r, app_nil_r. split_and!; try done.
  - cbn [walk]. unfold mbind at 1, IO_bind at 1, is_file.
    destruct (bool_decide (is_Some (files w !! p))
              && bool_decide (suffix_lower os p ∈ WEB_EXTENSIONS)) eqn:Hsel.
    + apply andb_true_iff in Hsel as [_ Hweb%bool_decide_eq_true].
      unfold mbind at 1, IO_bind at 1, print.
      unfold mbind at 1, IO_bind at 1.
      set (w1 := World (files w) (dirs w) (stdout w ++ [MsgChecking p])).
      destruct (process_file_runs os p (dry_run args) w1)
        as ([n changed] & w2 & -> & Hrun).
      pose proof (process_file_run_flag _ _ _ _ _ _ _ Hrun) as Hflag.
      pose proof (process_file_run_dirs _ _ _ _ _ _ Hrun) as Hd2.
      pose proof (process_file_run_frame _ _ _ _ _ _ Hrun) as Hframe2.
      destruct (process_file_run_checked _ _ _ _ _ _ Hrun) as (ms2 & Ho2 & Hc2).
      destruct (IH (S a) (if changed then S b else b) (c + n)%nat w2)
        as (k & j & m & w' & ms & -> & Hout & Hlen & Hsub & Hall & Hjk & Hjm
            & Hdirs & Hdry & Hframe).
      exists (S k), ((if changed then 1 else 0) + j)%nat, (n + m)%nat, w',
             ([MsgChecking p] ++ ms2 ++ ms).
      split_and!.
      * assert (S a + k = a + S k)%nat as -> by lia.
        assert ((if changed then S b else b) + j
                = b + ((if changed then 1 else 0) + j))%nat as ->
          by (destruct changed; lia).
        assert (c + n + m = c + (n + m))%nat as -> by lia. done.
      * rewrite Hout, Ho2. subst w1. cbn [stdout]. by rewrite <- !app_assoc.
      * rewrite !checked_app, Hc2. cbn. by rewrite Hlen.
      * rewrite !checked_app, Hc2. cbn. by apply sublist_skip.
      * rewrite !checked_app, Hc2. cbn. by constructor.
      * destruct changed; lia.
      * subst changed. case_bool_decide; lia.
      * by rewrite Hdirs, Hd2.
      * intros Hmode. rewrite (Hdry Hmode). rewrite Hmode in Hrun.
        by apply process_file_run_dry in Hrun.
      * intros q Hq. rewrite !checked_app, Hc2 in Hq. cbn in Hq.
        rewrite Hframe by (intros p' Hp'; apply Hq; by right).
        destruct (Hq p) as [Hq1 Hq2]; [by left|].
        by apply Hframe2.
    + destruct (IH a b c w)
        as (k & j & m & w' & ms & -> & Hout & Hlen & Hsub & Hall & Hjk & Hjm
            & Hdirs & Hdry & Hframe).
      exists k, j, m, w', ms. split_and!; try done. by apply sublist_cons.
Qed.

Lemma main_runs (os : platform) (args : arguments) (w : world) :
  root_exists w (path args) ->
  exists tf cf tr w2,
    walk os args (rglob os (files w) (dirs w) (path args)) O O O
         (log w [MsgStarted (path args) (dry_run args)])
      = (Return (tf, cf, tr), w2) /\
    main os args w
      = (Return tt,
         log w2 [MsgSummary tf cf tr;
                 if dry_run args then MsgDryRunNote else MsgBackupNote;
                 MsgDone]).
Proof.
  intros Hex. unfold main. unfold mbind at 1, IO_bind at 1, print.
  unfold mbind at 1, IO_bind at 1, path_exists. cbn [files dirs stdout].
  assert (bool_decide (is_Some (files w !! path args))
          || bool_decide (path args ∈ dirs w) = true) as ->.
  { apply orb_true_iff. destruct Hex; [left | right]; by apply bool_decide_eq_true. }
  cbn [negb]. unfold mbind at 1, IO_bind at 1. cbn [files dirs].
  unfold mbind at 1, IO_bind at 1.
  fold (log w [MsgStarted (path args) (dry_run args)]).
  destruct (walk_accounts os args (rglob os (files w) (dirs w) (path args))
              O O O (log w [MsgStarted (path args) (dry_run args)]))
    as (k & j & m & w2 & ms & Hwalk & _).
  cbn [Nat.add] in Hwalk. rewrite Hwalk.
  exists k, j, m, w2. split; [done|].
  unfold mbind, IO_bind, print, log.
  destruct (dry_run args); cbn [files dirs stdout]; rewrite <- ?app_assoc.
  all: reflexivity.
Qed.

(** X6. The summary [main] prints is consistent with the run: the
    number of files it reports as checked is the number of files it
    handed to [process_file], which are web files of the enumeration in
    its order, each at most once per listing entry; the number of changed
    files exceeds neither that number nor the total of corrections, and
    the summary is followed by the note of the mode and the closing
    line. *)
Theorem X6_summary_counts (os : platform) (args : arguments) (w : world) :
  root_exists w (path args) ->
  exists total_files changed_files total_replacements ms,
    stdout (main os args w).2
      = stdout w ++ [MsgStarted (path args) (dry_run args)] ++ ms
        ++ [MsgSummary total_files changed_files total_replacements;
            if dry_run args then MsgDryRunNote else MsgBackupNote;
            MsgDone] /\
    total_files = length (checked ms) /\
    sublist (checked ms) (rglob os (files w) (dirs w) (path args)) /\
    Forall (fun p => suffix_lower os p ∈ WEB_EXTENSIONS) (checked ms) /\
    (changed_files <= total_files)%nat /\
    (changed_files <= total_replacements)%nat.
Proof.
  intros Hex.
  destruct (main_runs os args w Hex) as (tf & cf & tr & w2 & Hwalk & ->).
  destruct (walk_accounts os args (rglob os (files w) (dirs w) (path args))
              O O O (log w [MsgStarted (path args) (dry_run args)]))
    as (k & j & m & w' & ms & Hwalk' & Hout & Hlen & Hsub & Hall & Hjk & Hjm & _).
  rewrite Hwalk in Hwalk'. cbn [Nat.add] in Hwalk'.
  injection Hwalk' as -> -> -> ->.
  exists k, j, m, ms. cbn [snd]. unfold log in *. cbn [stdout] in *.
  rewrite Hout, <- !app_assoc. split_and!; done.
Qed.

Lemma X6_summary_counts_witness :
  root_exists example_world "site" /\
  exists total_files changed_files total_replacements ms,
    stdout (main posix (Args "site" false) example_world).2
      = [MsgStarted "site" false] ++ ms
        ++ [MsgSummary total_files changed_files total_replacements;
            MsgBackupNote; MsgDone] /\
    (changed_files <= total_files)%nat.
Proof.
  assert (root_exists example_world "site") as Hroot
    by (right; vm_compute; reflexivity).
  split; [exact Hroot|].
  destruct (X6_summary_counts posix (Args "site" false) example_world Hroot)
    as (tf & cf & tr & ms & Hout & _ & _ & _ & Hle & _).
  exists tf, cf, tr, ms. split; [exact Hout | exact Hle].
Defined.

(** X7. A dry run of the whole program writes nothing: after [main]
    with [--dry-run], whether the root exists or not, every file and
    every directory is what it was. *)
Theorem X7_dry_run_main_writes_nothing (os : platform) (args : arguments)
    (w : world) :
  dry_run args = true ->
  files (main os args w).2 = files w /\ dirs (main os args w).2 = dirs w.
Proof.
  intros Hdry.
  destruct (decide (is_Some (files w !! path args) \/ path args ∈ dirs w))
    as [Hex | Hno].
  - destruct (main_runs os args w Hex) as (tf & cf & tr & w2 & Hwalk & ->).
    destruct (walk_accounts os args (rglob os (files w) (dirs w) (path args))
                O O O (log w [MsgStarted (path args) (dry_run args)]))
      as (k & j & m & w' & ms & Hwalk' & _ & _ & _ & _ & _ & _ & Hdirs & Hfiles & _).
    rewrite Hwalk in Hwalk'. injection Hwalk' as _ _ _ ->.
    cbn [snd log files dirs]. split; [by apply Hfiles | exact Hdirs].
  - rewrite main_missing; [done | |].
    + destruct (files w !! path args) eqn:Hf; [|done].
      exfalso. apply Hno. left. by eexists.
    + intros Hd. apply Hno. by right.
Qed.

Lemma X7_dry_run_main_writes_nothing_witness :
  dry_run (Args "site" true) = true /\
  files (main posix (Args "site" true) example_world).2 = files example_world.
Proof.
  split; [reflexivity|].
  exact (proj1 (X7_dry_run_main_writes_nothing posix (Args "site" true)
                  example_world eq_refl)).
Defined.



(** ** The dict display *)

Lemma dict_setitem_keys (d : dict) (k v : text) :
  map fst (dict_setitem d k v)
  = if decide (k ∈ map fst d) then map fst d else map fst d ++ [k].
Proof.
  induction d as [|[k' v'] d IH]; [done|].
  cbn [dict_setitem]. destruct (decide (k' = k)) as [-> | Hne].
  - cbn [map fst]. rewrite decide_True; [done|]. apply list_elem_of_here.
  - cbn [map fst]. rewrite IH.
    destruct (decide (k ∈ map fst d)) as [Hin | Hout].
    + rewrite decide_True; [done|]. by apply list_elem_of_further.
    + rewrite decide_False; [done|].
      intros [? | ?]%elem_of_cons; [congruence | done].
Qed.

Lemma dict_setitem_get (d : dict) (k v k' : text) :
  dict_get (dict_setitem d k v) k'
  = if decide (k = k') then Some v else dict_get d k'.
Proof.
  induction d as [|[k0 v0] d IH].
  - cbn [dict_setitem dict_get]. by destruct (decide (k = k')).
  - cbn [dict_setitem]. destruct (decide (k0 = k)) as [-> | Hne].
    + cbn [dict_get]. by destruct (decide (k = k')).
    + cbn [dict_get]. rewrite IH.
      destruct (decide (k0 = k')) as [-> | Hne']; [|done].
      by rewrite decide_False by congruence.
Qed.

Lemma dict_display_snoc (items : list (text * text)) (k v : text) :
  dict_display (items ++ [(k, v)]) = dict_setitem (dict_display items) k v.
Proof. unfold dict_display. by rewrite fold_left_app. Qed.

Lemma dict_get_snoc (d : dict) (k v k' : text) :
  dict_get (reverse (d ++ [(k, v)])) k'
  = if decide (k = k') then Some v else dict_get (reverse d) k'.
Proof. by rewrite reverse_snoc. Qed.

(** X9. What the dict display of [ENCODING_FIXES] builds, for any list
    of written items: a key is kept once, at the place of its first
    occurrence, with the value of its last occurrence; so the table the
    loop iterates has pairwise distinct patterns, and an item is in it
    exactly when it is the last one written for its key. *)
Theorem X9_dict_display (items : list (text * text)) :
  let d := dict_display items in
  NoDup (map fst d) /\
  map fst d = reverse (remove_dups (reverse (map fst items))) /\
  (forall k, dict_get d k = dict_get (reverse items) k) /\
  (forall k v, (k, v) ∈ d <-> dict_get (reverse items) k = Some v).
Proof.
  cbn zeta.
  assert (map fst (dict_display items)
          = reverse (remove_dups (reverse (map fst items)))) as Hkeys.
  { induction items as [|[k v] items IH] using rev_ind; [done|].
    rewrite dict_display_snoc, dict_setitem_keys, IH, map_app.
    cbn [map fst]. rewrite reverse_snoc. cbn [remove_dups].
    destruct (decide_rel elem_of k (reverse (map fst items))) as [Hin | Hout].
    - rewrite decide_True; [done|]. by apply elem_of_reverse, elem_of_remove_dups.
    - rewrite decide_False; [by rewrite reverse_cons|].
      by rewrite elem_of_reverse, elem_of_remove_dups. }
  assert (NoDup (map fst (dict_display items))) as Hnodup.
  { rewrite Hkeys, reverse_Permutation. apply NoDup_remove_dups. }
  assert (forall k, dict_get (dict_display items) k = dict_get (reverse items) k)
    as Hget.
  { clear Hkeys Hnodup. intros k'.
    induction items as [|[k v] items IH] using rev_ind; [done|].
    rewrite dict_display_snoc, dict_setitem_get, dict_get_snoc.
    by destruct (decide (k = k')). }
  split_and!; try done.
  intros k v. rewrite <- Hget. clear Hkeys Hget.
  induction (dict_display items) as [|[k0 v0] d IH]; cbn [dict_get].
  - split; [by intros ?%not_elem_of_nil | done].
  - cbn [map fst] in Hnodup. apply NoDup_cons in Hnodup as [Hk0 Hd].
    rewrite elem_of_cons, (IH Hd).
    destruct (decide (k0 = k)) as [-> | Hne].
    + split.
      * intros [[= ->] | Hin]; [done|]. exfalso. apply Hk0.
        clear -Hin. induction d as [|[k1 v1] d IH]; [done|].
        cbn [dict_get] in Hin. cbn [map fst].
        destruct (decide (k1 = k)) as [-> | ?]; [left | right; auto].
      * intros [= ->]. by left.
    + split; [intros [[= -> ->] | ?]; done | by right].
Qed.

(** ** The characters that drive the table *)

Lemma process_file_idle (os : platform) (file_path : string)
    (dry_run : bool) (w : world) (bs : list byte) (s : text) :
  denied os (OpenRead file_path) = false ->
  files w !! file_path = Some bs ->
  decoded_text bs = Some s ->
  fixed_count s = O ->
  process_file os file_path dry_run w = (Return (O, false), w).
Proof.
  intros Hd Hf Hs Hz.
  destruct (process_file_runs os file_path dry_run w) as (r & w' & -> & Hrun).
  destruct Hrun;
    try match goal with
    | Hf0 : files w !! file_path = Some ?b, Hs0 : decoded_text ?b = Some ?t,
      Hp : (0 < fixed_count ?t)%nat |- _ =>
        rewrite Hf in Hf0; injection Hf0 as <-;
        rewrite Hs in Hs0; injection Hs0 as <-;
        rewrite Hz in Hp; lia
    end.
  - match goal with H : _ \/ _ |- _ => destruct H; congruence end.
  - done.
Qed.

Lemma absent_idle (s : text) (gone : list text) :
  absent s gone ->
  Forall (fun e => e.1 ∈ gone) ENCODING_FIXES ->
  fixed_text s = s /\ fixed_count s = O.
Proof.
  intros Habsent Hall.
  assert (substitute_all ENCODING_FIXES s = (s, O)) as Heq.
  { apply substitute_all_absent. apply Forall_forall. intros e He.
    apply count_zero_iff; [by apply ENCODING_FIXES_patterns|].
    apply (proj1 (Forall_forall _ _) Habsent).
    by apply (proj1 (Forall_forall _ _) Hall). }
  unfold fixed_text, fixed_count. by rewrite Heq.
Qed.

Lemma fixed_text_settled (s : text) :
  contains s [A_CIRCUMFLEX] = false ->
  fixed_text (fixed_text s) = fixed_text s /\ fixed_count (fixed_text s) = O.
Proof.
  intros Hs.
  apply (absent_idle _ (fold_left gone_step ENCODING_FIXES [[A_CIRCUMFLEX]])).
  - apply gone_fold_sound. by constructor.
  - assert (forallb (fun e : text * text =>
              bool_decide (e.1 ∈ fold_left gone_step ENCODING_FIXES [[A_CIRCUMFLEX]]))
              ENCODING_FIXES = true) as Hall by (vm_compute; reflexivity).
    rewrite forallb_forall in Hall. apply Forall_forall. intros e He%list_elem_of_In.
    specialize (Hall e He). by apply bool_decide_eq_true in Hall.
Qed.

Lemma contains_char (s p : text) (c : Z) :
  contains s p = true -> c ∈ p -> contains s [c] = true.
Proof.
  intros Hp Hc. apply (contains_trans s p [c]); [|done].
  apply contains_iff. apply list_elem_of_split in Hc as (l & r & ->).
  by exists l, r.
Qed.

Lemma fixed_text_plain (s : text) :
  contains s [A_TILDE] = false -> contains s [A_CIRCUMFLEX] = false ->
  fixed_text s = s /\ fixed_count s = O.
Proof.
  intros H1 H2.
  assert (forallb (fun e : text * text =>
            bool_decide (A_TILDE ∈ e.1) || bool_decide (A_CIRCUMFLEX ∈ e.1))
            ENCODING_FIXES = true) as Hall by (vm_compute; reflexivity).
  rewrite forallb_forall in Hall.
  assert (substitute_all ENCODING_FIXES s = (s, O)) as Heq.
  { apply substitute_all_absent. apply Forall_forall. intros e He.
    apply count_zero_iff; [by apply ENCODING_FIXES_patterns|].
    apply list_elem_of_In in He. specialize (Hall e He).
    destruct (contains s e.1) eqn:Hc; [|done].
    apply orb_true_iff in Hall as [Hin | Hin]; apply bool_decide_eq_true in Hin.
    - by rewrite (contains_char _ _ _ Hc Hin) in H1.
    - by rewrite (contains_char _ _ _ Hc Hin) in H2. }
  unfold fixed_text, fixed_count. by rewrite Heq.
Qed.

(** X10. The table is driven by two characters: every pattern holds
    U+00C3 or U+00E2.  A text with neither is returned as it is, with a
    count of zero; and a text without U+00E2 is settled by one pass: a
    second pass over the result replaces nothing. *)
Theorem X10_trigger_characters (s : text) :
  Forall (fun e => A_TILDE ∈ e.1 \/ A_CIRCUMFLEX ∈ e.1) ENCODING_FIXES /\
  (contains s [A_TILDE] = false -> contains s [A_CIRCUMFLEX] = false ->
   fixed_text s = s /\ fixed_count s = O) /\
  (contains s [A_CIRCUMFLEX] = false ->
   fixed_text (fixed_text s) = fixed_text s /\ fixed_count (fixed_text s) = O).
Proof.
  split_and!.
  - assert (forallb (fun e : text * text =>
              bool_decide (A_TILDE ∈ e.1) || bool_decide (A_CIRCUMFLEX ∈ e.1))
              ENCODING_FIXES = true) as Hall by (vm_compute; reflexivity).
    rewrite forallb_forall in Hall. apply Forall_forall. intros e He%list_elem_of_In.
    specialize (Hall e He).
    apply orb_true_iff in Hall as [Hin | Hin]; apply bool_decide_eq_true in Hin; auto.
  - apply fixed_text_plain.
  - apply fixed_text_settled.
Qed.

Lemma X10_trigger_characters_witness :
  contains SPAETER [A_TILDE] = false /\
  contains SPAETER [A_CIRCUMFLEX] = false /\
  fixed_text SPAETER = SPAETER /\
  contains spaeter_text [A_CIRCUMFLEX] = false /\
  fixed_count (fixed_text spaeter_text) = O.
Proof.
  assert (contains SPAETER [A_TILDE] = false) as H1 by (vm_compute; reflexivity).
  assert (contains SPAETER [A_CIRCUMFLEX] = false) as H2 by (vm_compute; reflexivity).
  assert (contains spaeter_text [A_CIRCUMFLEX] = false) as H3
    by (vm_compute; reflexivity).
  split; [exact H1|]. split; [exact H2|].
  split; [exact (proj1 (proj1 (proj2 (X10_trigger_characters SPAETER)) H1 H2))|].
  split; [exact H3|].
  exact (proj2 (proj2 (proj2 (X10_trigger_characters spaeter_text)) H3)).
Defined.

(** X11. A repaired file is left alone by the next live run when its
    original text held no U+00E2: the run after the repair decodes the
    corrected text, finds nothing, returns [(0, False)] and changes
    neither a file nor the console. *)
Theorem X11_second_run_is_idle (os : platform) (file_path : string)
    (w : world) (bs : list byte) (s : text) :
  denied os (OpenRead file_path) = false ->
  files w !! file_path = Some bs ->
  decoded_text bs = Some s ->
  contains s [A_CIRCUMFLEX] = false ->
  denied os (Copy file_path (backup_path_of file_path)) = false ->
  denied os (OpenWrite file_path) = false ->
  denied os (WriteData file_path) = false ->
  let first := process_file os file_path false w in
  first.1 = Return (fixed_count s, bool_decide (0 < fixed_count s)%nat) /\
  process_file os file_path false first.2 = (Return (O, false), first.2).
Proof.
  intros Hd Hf Hs Hplain Hc Ho Hw. cbn zeta.
  destruct (fixed_text_settled s Hplain) as [_ Hsettled].
  destruct (process_file_result os file_path false w bs s Hd Hf Hs)
    as (w' & Heq & Hlive); [by right|].
  rewrite Heq. cbn [fst snd]. split; [done|].
  destruct (fixed_count s) as [|n] eqn:Hn.
  - rewrite (process_file_idle os file_path false w bs s Hd Hf Hs Hn) in Heq.
    injection Heq as <-.
    by apply (process_file_idle os file_path false w bs s).
  - destruct (Hlive eq_refl ltac:(lia)) as (bs' & Henc & Hfiles).
    apply (process_file_idle os file_path false w' bs' (fixed_text s));
      try done.
    + rewrite Hfiles. apply lookup_insert_eq.
    + unfold decoded_text, ENCODINGS. cbn [first_decodable decode].
      rewrite (utf8_decode_encode _ _ Henc).
      cbn [fmap option_fmap option_map fst]. f_equal.
      apply read_after_write_newlines. by apply (fixed_text_no_CR bs).
Qed.

Lemma X11_second_run_is_idle_witness :
  files example_world !! "site/a.php"%string = Some spaeter_bytes /\
  decoded_text spaeter_bytes = Some spaeter_text /\
  contains spaeter_text [A_CIRCUMFLEX] = false /\
  let first := process_file posix "site/a.php" false example_world in
  first.1 = Return (3%nat, true) /\
  process_file posix "site/a.php" false first.2 = (Return (O, false), first.2).
Proof.
  assert (files example_world !! "site/a.php"%string = Some spaeter_bytes) as Hf
    by (vm_compute; reflexivity).
  assert (decoded_text spaeter_bytes = Some spaeter_text) as Hs
    by (vm_compute; reflexivity).
  assert (contains spaeter_text [A_CIRCUMFLEX] = false) as Hp
    by (vm_compute; reflexivity).
  split; [exact Hf|]. split; [exact Hs|]. split; [exact Hp|].
  exact (X11_second_run_is_idle posix "site/a.php" example_world spaeter_bytes
           spaeter_text eq_refl Hf Hs Hp eq_refl eq_refl eq_refl).
Defined.

(** ** Characters that no pattern holds *)

Lemma startswith_before (c : Z) (p u b : text) :
  c ∉ p -> startswith (u ++ c :: b) p = true -> startswith u p = true.
Proof.
  revert u. induction p as [|a p IH]; intros u Hc H; [done|].
  destruct u as [|x u].
  - apply startswith_cons in H as [-> _]. exfalso. apply Hc. by left.
  - change ((x :: u) ++ c :: b) with (x :: (u ++ c :: b)) in H.
    apply startswith_cons in H as [-> H]. apply startswith_cons.
    split; [done|]. apply IH; [|done]. intros Hin. apply Hc. by right.
Qed.

Lemma scan_splits (c : Z) (p r a b : text) :
  p <> [] -> c ∉ p ->
  replace (a ++ c :: b) p r = replace a p r ++ c :: replace b p r /\
  count (a ++ c :: b) p = (count a p + count b p)%nat.
Proof.
  intros Hp Hc.
  induction a as [| t [IH1 IH2] | x t Hsw [IH1 IH2]] using (scan_ind p Hp).
  - assert (startswith (c :: b) p = false) as Hsw.
    { destruct (startswith (c :: b) p) eqn:E; [|done].
      apply (startswith_before c p [] b Hc) in E. by destruct p. }
    rewrite replace_nil, count_nil by done. cbn [app Nat.add].
    by rewrite replace_skip, count_skip.
  - rewrite <- app_assoc, !replace_match, !count_match by done.
    rewrite IH1, IH2. by rewrite <- app_assoc.
  - assert (startswith (x :: t ++ c :: b) p = false) as Hsw'.
    { destruct (startswith (x :: t ++ c :: b) p) eqn:E; [|done].
      apply (startswith_before c p (x :: t) b Hc) in E. congruence. }
    change ((x :: t) ++ c :: b) with (x :: (t ++ c :: b)).
    rewrite (replace_skip x (t ++ c :: b)), (count_skip x (t ++ c :: b)) by done.
    rewrite (replace_skip x t), (count_skip x t) by done.
    by rewrite IH1, IH2.
Qed.

Lemma substitute_all_splits (c : Z) (table : dict) (a b : text) :
  Forall (fun e => e.1 <> [] /\ c ∉ e.1) table ->
  substitute_all table (a ++ c :: b)
  = ((substitute_all table a).1 ++ c :: (substitute_all table b).1,
     ((substitute_all table a).2 + (substitute_all table b).2)%nat).
Proof.
  revert a b. induction table as [|[p r] table IH]; intros a b H; [done|].
  apply Forall_cons in H as [[Hp Hc] Hrest]. cbn [fst] in Hp, Hc.
  rewrite !substitute_all_cons. cbn [fst snd].
  destruct (scan_splits c p r a b Hp Hc) as [-> ->].
  rewrite (IH _ _ Hrest). cbn [fst snd]. f_equal. lia.
Qed.

(** X12. The pass never reaches across a character that occurs in no
    pattern of the table, such as a line end or a blank: the texts on
    its two sides are repaired independently of each other, and their
    counts add up. *)
Theorem X12_repair_is_local (c : Z) (a b : text) :
  Forall (fun e => c ∉ e.1) ENCODING_FIXES ->
  fixed_text (a ++ c :: b) = fixed_text a ++ c :: fixed_text b /\
  fixed_count (a ++ c :: b) = (fixed_count a + fixed_count b)%nat.
Proof.
  intros Hc. unfold fixed_text, fixed_count.
  rewrite (substitute_all_splits c ENCODING_FIXES a b); [done|].
  apply Forall_forall. intros e He. split.
  - by apply ENCODING_FIXES_patterns.
  - by apply (proj1 (Forall_forall _ _) Hc).
Qed.

Lemma X12_repair_is_local_witness :
  Forall (fun e : text * text => LF ∉ e.1) ENCODING_FIXES /\
  fixed_text (SPAETER_WRONG ++ LF :: SPAETER_WRONG) = SPAETER ++ LF :: SPAETER /\
  fixed_count (SPAETER_WRONG ++ LF :: SPAETER_WRONG) = 2%nat.
Proof.
  assert (Forall (fun e : text * text => LF ∉ e.1) ENCODING_FIXES) as Hc.
  { assert (forallb (fun e : text * text => bool_decide (LF ∉ e.1))
              ENCODING_FIXES = true) as Hall by (vm_compute; reflexivity).
    rewrite forallb_forall in Hall. apply Forall_forall.
    intros e He%list_elem_of_In. specialize (Hall e He).
    by apply bool_decide_eq_true in Hall. }
  split; [exact Hc|].
  exact (X12_repair_is_local LF SPAETER_WRONG SPAETER_WRONG Hc).
Defined.

(** ** Plain ASCII files *)

Lemma utf8_decode_ascii (bs : list byte) :
  Forall (fun b => byte_val b < 0x80) bs ->
  utf8_decode bs = Some (map byte_val bs).
Proof.
  induction 1 as [|b bs Hb Hbs IH]; [done|].
  cbn [utf8_decode map].
  apply Z.ltb_lt in Hb. rewrite Hb. by rewrite IH.
Qed.

Lemma Forall_no_char (P : Z -> Prop) (s : text) (c : Z) :
  Forall P s -> ~ P c -> contains s [c] = false.
Proof.
  intros Hs Hc. destruct (contains s [c]) eqn:E; [|done].
  apply contains_iff in E as (l & r & ->).
  apply Forall_app in Hs as [_ Hs]. apply Forall_app in Hs as [Hs _].
  apply Forall_cons in Hs as [Hs _]. done.
Qed.

(** X13. A file of plain ASCII bytes is never touched: it decodes as
    UTF-8 to the same characters, no pattern of the table can occur in
    it, and [process_file] returns [(0, False)] without a backup, a
    write or a printed line, in a live run as in a dry run. *)
Theorem X13_ascii_file_is_untouched (os : platform) (file_path : string)
    (dry_run : bool) (w : world) (bs : list byte) :
  denied os (OpenRead file_path) = false ->
  files w !! file_path = Some bs ->
  Forall (fun b => byte_val b < 0x80) bs ->
  first_decodable ENCODINGS bs = Some (map byte_val bs, UTF_8) /\
  process_file os file_path dry_run w = (Return (O, false), w).
Proof.
  intros Hd Hf Hascii.
  assert (first_decodable ENCODINGS bs = Some (map byte_val bs, UTF_8)) as Hfirst.
  { unfold ENCODINGS. cbn [first_decodable decode].
    by rewrite (utf8_decode_ascii bs Hascii). }
  split; [exact Hfirst|].
  assert (Forall (fun c => c < 0x80) (universal_newlines (map byte_val bs))) as Hs.
  { unfold universal_newlines.
    repeat apply replace_Forall; try (by repeat constructor).
    by apply Forall_map. }
  apply (process_file_idle os file_path dry_run w bs
           (universal_newlines (map byte_val bs))); try done.
  - unfold decoded_text. by rewrite Hfirst.
  - apply fixed_text_plain; apply (Forall_no_char _ _ _ Hs); by cbv.
Qed.

Lemma X13_ascii_file_is_untouched_witness :
  files clean_world !! "site/d.css"%string = Some clean_bytes /\
  Forall (fun b => byte_val b < 0x80) clean_bytes /\
  process_file read_only "site/d.css" false clean_world
    = (Return (O, false), clean_world).
Proof.
  assert (files clean_world !! "site/d.css"%string = Some clean_bytes) as Hf
    by (vm_compute; reflexivity).
  assert (Forall (fun b => byte_val b < 0x80) clean_bytes) as Ha
    by (repeat constructor).
  split; [exact Hf|]. split; [exact Ha|].
  exact (proj2 (X13_ascii_file_is_untouched read_only "site/d.css" false
                  clean_world clean_bytes eq_refl Hf Ha)).
Defined.

(** ** Backups and the walker *)

Lemma rev_app_append (s1 s2 acc : string) :
  String.rev_app (s1 +:+ s2) acc = String.rev_app s2 (String.rev_app s1 acc).
Proof.
  revert acc. induction s1 as [|a s1 IH]; intros acc; [done|].
  cbn [String.append String.rev_app]. apply IH.
Qed.

Lemma posix_suffix_backup (p : string) :
  posix_suffix_lower (backup_path_of p) = ""%string \/
  posix_suffix_lower (backup_path_of p) = ".backup"%string.
Proof.
  unfold posix_suffix_lower, backup_path_of, String.rev.
  rewrite rev_app_append. cbn [String.rev_app].
  destruct (String.rev_app p "") as [|d rest]; [by left|].
  cbn. destruct (Ascii.eqb d "/"); [by left | by right].
Qed.

(** X14. The walker never takes a backup for a file to repair: the
    suffix of [name + '.backup'] is [.backup] (or empty), which is not
    among the extensions, so on a POSIX machine a backup in the tree is
    passed over without a read, a write or a printed line, whatever it
    holds. *)
Theorem X14_backups_are_skipped (args : arguments) (p : string)
    (rest : list string) (a b c : nat) (w : world) :
  (posix_suffix_lower (backup_path_of p) ∉ WEB_EXTENSIONS) /\
  (~ selected posix w (backup_path_of p)) /\
  walk posix args (backup_path_of p :: rest) a b c w
  = walk posix args rest a b c w.
Proof.
  assert (posix_suffix_lower (backup_path_of p) ∉ WEB_EXTENSIONS) as Hout.
  { destruct (posix_suffix_backup p) as [-> | ->]; by vm_compute. }
  split_and!.
  - exact Hout.
  - by intros [_ Hin].
  - cbn [walk]. unfold mbind at 1, IO_bind at 1, is_file.
    cbn [suffix_lower posix].
    rewrite (bool_decide_eq_false_2 _ Hout). by rewrite andb_false_r.
Qed.

(** ** Line ends of the written file *)

Lemma join_part (sep l : text) (parts : list text) :
  l ∈ parts -> contains (join sep parts) l = true.
Proof.
  induction parts as [|u [|v rest] IH]; intros Hin.
  - by apply not_elem_of_nil in Hin.
  - apply list_elem_of_singleton in Hin as ->. cbn [join].
    apply contains_iff. exists [], []. by rewrite app_nil_r.
  - rewrite join_cons_cons. apply elem_of_cons in Hin as [-> | Hin].
    + apply contains_app_l. apply contains_iff. exists [], []. by rewrite app_nil_r.
    + apply contains_app_r, contains_app_r. by apply IH.
Qed.

Lemma lines_of (sep : line_separator) (t : text) :
  contains t [CR] = false ->
  exists lines : list text,
    t = join [LF] lines /\
    write_newlines sep t = join (linesep_text sep) lines /\
    Forall (fun l => contains l [CR] = false /\ contains l [LF] = false) lines.
Proof.
  intros Hcr.
  destruct (replace_join t [LF] (linesep_text sep) ltac:(done))
    as (lines & Ht & Hrep & _ & Hlf).
  exists lines. split_and!.
  - exact Ht.
  - unfold write_newlines. case_decide as Hsep; [|done].
    by rewrite Hsep, <- Ht.
  - apply Forall_forall. intros l Hl. split.
    + destruct (contains l [CR]) eqn:E; [|done].
      rewrite <- Hcr. symmetry. apply (contains_trans t l [CR] E).
      rewrite Ht. by apply join_part.
    + by apply (proj1 (Forall_forall _ _) Hlf).
Qed.

(** X15. A repair rewrites the line ends: whatever line ends the file
    had (CR LF, CR or LF), the text written is the lines of the
    corrected text joined by [os.linesep], and no line holds a CR or an
    LF of its own.  On a POSIX machine a repaired file has lost its
    carriage returns. *)
Theorem X15_line_ends_follow_the_platform (os : platform)
    (file_path : string) (w : world) (n : nat) :
  (process_file os file_path false w).1 = Return (n, true) ->
  exists bs s bs' lines,
    files w !! file_path = Some bs /\
    decoded_text bs = Some s /\
    fixed_text s = join [LF] lines /\
    Forall (fun l => contains l [CR] = false /\ contains l [LF] = false) lines /\
    files (process_file os file_path false w).2 !! file_path = Some bs' /\
    utf8_decode bs' = Some (join (linesep_text (linesep os)) lines).
Proof.
  intros Hres.
  destruct (process_file_runs os file_path false w) as (r & w' & Heq & Hrun).
  rewrite Heq in *. cbn [fst snd] in *. injection Hres as ->.
  inversion Hrun; subst; try done.
  match goal with H : decoded_text bs = Some _ |- _ =>
    pose proof (fixed_text_no_CR _ _ H) as Hcr end.
  destruct (lines_of (linesep os) (fixed_text s) Hcr) as (lines & Hs & Hw & Hall).
  exists bs, s, bs', lines. split_and!; try done.
  - unfold log, set_file. cbn [files]. apply lookup_insert_eq.
  - rewrite <- Hw. by apply utf8_decode_encode.
Qed.

Lemma X15_line_ends_follow_the_platform_witness :
  (process_file posix "site/e.xml" false crlf_world).1 = Return (1%nat, true) /\
  first_decodable ENCODINGS crlf_bytes = Some ([0xC3; 0xA4; CR; LF], UTF_8) /\
  exists bs' lines,
    files (process_file posix "site/e.xml" false crlf_world).2
      !! "site/e.xml"%string = Some bs' /\
    utf8_decode bs' = Some (join [LF] lines) /\
    Forall (fun l => contains l [CR] = false /\ contains l [LF] = false) lines.
Proof.
  assert ((process_file posix "site/e.xml" false crlf_world).1
          = Return (1%nat, true)) as Hres by (vm_compute; reflexivity).
  split; [exact Hres|]. split; [vm_compute; reflexivity|].
  destruct (X15_line_ends_follow_the_platform posix "site/e.xml" crlf_world 1 Hres)
    as (bs & s & bs' & lines & _ & _ & _ & Hall & Hfile & Hdec).
  exists bs', lines. split; [exact Hfile|]. split; [exact Hdec | exact Hall].
Defined.

(** ** A tree with nothing to repair *)

Lemma walk_idle (os : platform) (args : arguments) (paths : list string)
    (a b c : nat) (w : world) :
  (forall p bs s, p ∈ paths -> suffix_lower os p ∈ WEB_EXTENSIONS ->
     files w !! p = Some bs -> decoded_text bs = Some s -> fixed_count s = O) ->
  exists k w' ms,
    walk os args paths a b c w = (Return ((a + k)%nat, b, c), w') /\
    files w' = files w /\ stdout w' = stdout w ++ ms /\
    Forall (fun m => match m with
                     | MsgChecking _ | MsgError (OSError (OpenRead _)) => True
                     | _ => False
                     end) ms.
Proof.
  revert a w. induction paths as [|p paths IH]; intros a w Hclean.
  - exists O, w, []. cbn [walk]. unfold mret, IO_ret.
    by rewrite Nat.add_0_r, app_nil_r.
  - cbn [walk]. unfold mbind at 1, IO_bind at 1, is_file.
    destruct (bool_decide (is_Some (files w !! p))
              && bool_decide (suffix_lower os p ∈ WEB_EXTENSIONS)) eqn:Hsel.
    + apply andb_true_iff in Hsel
        as [[bs Hbs]%bool_decide_eq_true Hweb%bool_decide_eq_true].
      unfold mbind at 1, IO_bind at 1, print.
      unfold mbind at 1, IO_bind at 1.
      set (w1 := World (files w) (dirs w) (stdout w ++ [MsgChecking p])).
      assert (exists ms1,
                process_file os p (dry_run args) w1
                = (Return (O, false), log w1 ms1) /\
                Forall (fun m => match m with
                     | MsgChecking _ | MsgError (OSError (OpenRead _)) => True
                     | _ => False
                     end) ms1) as (ms1 & -> & Hms1).
      { destruct (denied os (OpenRead p)) eqn:Hd.
        - eexists. split; [apply process_file_read_error; by left|].
          by repeat constructor.
        - destruct (decoded_text_total bs) as [s Hs].
          exists []. rewrite log_nil. split; [|constructor].
          apply (process_file_idle os p (dry_run args) w1 bs s); try done.
          apply (Hclean p bs s); try done. by left. }
      rewrite Nat.add_0_r.
      destruct (IH (S a) (log w1 ms1)) as (k & w' & ms & -> & Hf & Ho & Hms).
      { intros q bs0 s0 Hq. apply Hclean. by right. }
      exists (S k), w', ([MsgChecking p] ++ ms1 ++ ms). split_and!.
      * by rewrite Nat.add_succ_comm.
      * by rewrite Hf.
      * rewrite Ho. unfold log, w1. cbn [stdout]. by rewrite <- !app_assoc.
      * apply Forall_app. split; [by repeat constructor|].
        by apply Forall_app.
    + destruct (IH a w) as (k & w' & ms & -> & Hf & Ho & Hms).
      { intros q bs0 s0 Hq. apply Hclean. by right. }
      by exists k, w', ms.
Qed.

(** X16. Over a tree in which no web file holds anything to repair,
    [main] changes no file, in a live run as in a dry run and whatever
    reads the platform refuses: it prints one line for each file it
    checks (and an error line for each it cannot read), reports no
    changed file and no correction, and a live run still closes with the
    note that backups were made. *)
Theorem X16_nothing_to_repair (os : platform) (args : arguments) (w : world) :
  root_exists w (path args) ->
  (forall p bs s,
     p ∈ rglob os (files w) (dirs w) (path args) ->
     suffix_lower os p ∈ WEB_EXTENSIONS ->
     files w !! p = Some bs -> decoded_text bs = Some s -> fixed_count s = O) ->
  files (main os args w).2 = files w /\
  exists total_files ms,
    stdout (main os args w).2
    = stdout w ++ [MsgStarted (path args) (dry_run args)] ++ ms
      ++ [MsgSummary total_files O O;
          if dry_run args then MsgDryRunNote else MsgBackupNote;
          MsgDone] /\
    Forall (fun m => match m with
                     | MsgChecking _ | MsgError (OSError (OpenRead _)) => True
                     | _ => False
                     end) ms.
Proof.
  intros Hex Hclean.
  destruct (main_runs os args w Hex) as (tf & cf & tr & w2 & Hwalk & ->).
  destruct (walk_idle os args (rglob os (files w) (dirs w) (path args))
              O O O (log w [MsgStarted (path args) (dry_run args)]) Hclean)
    as (k & w' & ms & Hwalk' & Hf & Ho & Hms).
  rewrite Hwalk in Hwalk'. cbn [Nat.add] in Hwalk'.
  injection Hwalk' as -> -> -> ->.
  cbn [snd]. unfold log in *. cbn [files stdout] in *.
  split; [exact Hf|]. exists k, ms. split; [|exact Hms].
  by rewrite Ho, <- !app_assoc.
Qed.

Lemma X16_nothing_to_repair_witness :
  root_exists clean_world "site" /\
  files (main read_only (Args "site" false) clean_world).2 = files clean_world /\
  exists total_files ms,
    stdout (main read_only (Args "site" false) clean_world).2
    = [MsgStarted "site" false] ++ ms
      ++ [MsgSummary total_files O O; MsgBackupNote; MsgDone].
Proof.
  assert (root_exists clean_world "site") as Hroot
    by (right; vm_compute; reflexivity).
  assert (forall p bs s,
     p ∈ rglob read_only (files clean_world) (dirs clean_world) "site" ->
     suffix_lower read_only p ∈ WEB_EXTENSIONS ->
     files clean_world !! p = Some bs -> decoded_text bs = Some s ->
     fixed_count s = O) as Hclean.
  { intros p bs s Hp _ Hbs Hs.
    assert (rglob read_only (files clean_world) (dirs clean_world) "site"
            = ["site/d.css"%string]) as Heq by (vm_compute; reflexivity).
    rewrite Heq in Hp. apply list_elem_of_singleton in Hp as ->.
    assert (files clean_world !! "site/d.css"%string = Some clean_bytes) as Hf
      by (vm_compute; reflexivity).
    rewrite Hf in Hbs. injection Hbs as <-.
    assert (decoded_text clean_bytes = Some [0x61; 0x7B; 0x7D]) as Hd
      by (vm_compute; reflexivity).
    rewrite Hd in Hs. injection Hs as <-. vm_compute. reflexivity. }
  split; [exact Hroot|].
  destruct (X16_nothing_to_repair read_only (Args "site" false) clean_world
              Hroot Hclean) as (Hfiles & tf & ms & Hout & _).
  split; [exact Hfiles|]. exists tf, ms. exact Hout.
Defined.
